(** * TradeByWeex: the strategy front-end and the trading ledger

    A shallow embedding of the strategy pages of the web client
    (create-strategy modal, strategy card, trading-history list,
    portfolio panel) and of the portfolio ledger of [common/trading].

    Conventions.
    - A JavaScript [number] is an IEEE-754 binary64 value: Rocq's primitive
      [float].  [x > 0] is [PrimFloat.ltb 0 x], [x === 0] is
      [PrimFloat.eqb x 0], [x || 0] is [or_zero x].
    - A JavaScript string is a [string] (a byte string); [<], [>] on strings
      are [String.ltb], the order of JavaScript on ASCII text such as the
      curve's time strings; case mapping acts on the ASCII letters.
    - A string-literal union type of TypeScript is an inductive type together
      with the string each constructor stands for, so that the comparisons of
      the source ([=== "live"], [.includes("close")]) stay string comparisons.
    - A plain object sent over the wire is a [JsVal]; its keys keep their
      insertion order.
    - The Python ledger works on exact rationals [Q]: the rounding of its
      floats is left out. *)

From Stdlib Require Import String Ascii List ZArith QArith Qabs Lia Lqa Bool.
From Stdlib Require Import Floats DecimalString.
From stdpp Require Import gmap strings.

#[local] Set Warnings "-register-all".

Local Open Scope string_scope.
Local Open Scope list_scope.

(** ** JavaScript values and built-ins *)

Module Js.

(** [x || 0] on numbers: [0], [-0] and [NaN] are falsy. *)
Definition truthy (x : float) : bool :=
  negb (PrimFloat.eqb x 0%float || PrimFloat.is_nan x).

Definition or_zero (x : float) : float :=
  if truthy x then x else 0%float.

(** [a > b] on numbers. *)
Definition gt (a b : float) : bool := PrimFloat.ltb b a.

(** [s.slice(0, n)]. *)
Definition slice0 (n : nat) (s : string) : string := substring 0 n s.

(** [s.length >= 1]. *)
Definition nonempty (s : string) : bool := (1 <=? String.length s)%nat.

(** [s.includes(sub)]. *)
Fixpoint includes (s sub : string) : bool :=
  String.prefix sub s ||
  match s with
  | EmptyString => false
  | String _ s' => includes s' sub
  end.

Definition upper_char (c : ascii) : ascii :=
  let n := nat_of_ascii c in
  if (97 <=? n)%nat && (n <=? 122)%nat then ascii_of_nat (n - 32) else c.

Definition lower_char (c : ascii) : ascii :=
  let n := nat_of_ascii c in
  if (65 <=? n)%nat && (n <=? 90)%nat then ascii_of_nat (n + 32) else c.

Fixpoint map_string (f : ascii -> ascii) (s : string) : string :=
  match s with
  | EmptyString => EmptyString
  | String c s' => String (f c) (map_string f s')
  end.

(** [s.toUpperCase()] and [s.toLowerCase()] on ASCII text: the letters a-z
    and A-Z are mapped and every other character is kept.  Outside ASCII
    the platform follows Unicode (the long s becomes S, the sharp s becomes
    SS), which these definitions do not; a statement that depends on the
    mapping carries an [is_ascii] hypothesis. *)
Definition toUpperCase : string -> string := map_string upper_char.
Definition toLowerCase : string -> string := map_string lower_char.

(** A character below 128, and a text of such characters. *)
Definition is_ascii_char (c : ascii) : bool := (nat_of_ascii c <? 128)%nat.

Fixpoint is_ascii (s : string) : bool :=
  match s with
  | EmptyString => true
  | String c s' => is_ascii_char c && is_ascii s'
  end.

(** A value as [JSON.stringify] sees it. *)
Inductive JsVal : Type :=
| JUndefined
| JStr (s : string)
| JNum (x : float)
| JArr (items : list JsVal)
| JObj (fields : list (string * JsVal)).

(** [o[k]]: [undefined] when the key is absent. *)
Fixpoint obj_get {A : Type} (k : string) (fields : list (string * A)) : option A :=
  match fields with
  | [] => None
  | (k', v) :: rest => if String.eqb k k' then Some v else obj_get k rest
  end.

(** [o[k] = v]: an existing key keeps its place, a new key goes last. *)
Fixpoint obj_set {A : Type} (k : string) (v : A) (fields : list (string * A))
  : list (string * A) :=
  match fields with
  | [] => [(k, v)]
  | (k', v') :: rest =>
      if String.eqb k k' then (k, v) :: rest else (k', v') :: obj_set k v rest
  end.

(** An object literal [{k1: v1, ..., kn: vn}] (spreads already expanded):
    the entries are assigned from left to right. *)
Definition obj_lit {A : Type} (entries : list (string * A)) : list (string * A) :=
  fold_left (fun o kv => obj_set (fst kv) (snd kv) o) entries [].

(** [Object.keys(o)]. *)
Definition obj_keys {A : Type} (fields : list (string * A)) : list string :=
  map fst fields.

(** [k in o]. *)
Definition obj_has {A : Type} (k : string) (fields : list (string * A)) : bool :=
  match obj_get k fields with Some _ => true | None => false end.

Definition field (k : string) (v : JsVal) : JsVal :=
  match v with
  | JObj fields => match obj_get k fields with Some x => x | None => JUndefined end
  | _ => JUndefined
  end.

Definition keys_of (v : JsVal) : list string :=
  match v with
  | JObj fields => obj_keys fields
  | _ => []
  end.

End Js.

(** ** zod: the fragment the modal uses *)

Module Zod.
Import Js.

Inductive Schema : Type :=
| ZString (minLen : nat)                      (* z.string().min(n); z.string() is n = 0 *)
| ZNumber (lo hi : option float)              (* z.number().min(lo).max(hi) *)
| ZLiteral (lit : string)                     (* z.literal("...") *)
| ZEnum (opts : list string)                  (* z.enum([...]) *)
| ZArray (elt : Schema) (minLen : nat)        (* z.array(elt).min(n) *)
| ZObject (shape : list (string * Schema))    (* z.object({...}) *)
| ZUnion (opts : list Schema).                (* z.union([...]) *)

Definition in_range (lo hi : option float) (x : float) : bool :=
  negb (PrimFloat.is_nan x)
  && match lo with Some l => PrimFloat.leb l x | None => true end
  && match hi with Some h => PrimFloat.leb x h | None => true end.

(** [schema.safeParse(v).success].  An object schema reads the keys of its
    shape and ignores the others. *)
Fixpoint accepts (sch : Schema) (v : JsVal) {struct sch} : bool :=
  match sch with
  | ZString minLen =>
      match v with JStr s => (minLen <=? String.length s)%nat | _ => false end
  | ZNumber lo hi =>
      match v with JNum x => in_range lo hi x | _ => false end
  | ZLiteral lit =>
      match v with JStr s => String.eqb s lit | _ => false end
  | ZEnum opts =>
      match v with JStr s => existsb (String.eqb s) opts | _ => false end
  | ZArray elt minLen =>
      match v with
      | JArr items => (minLen <=? List.length items)%nat && forallb (accepts elt) items
      | _ => false
      end
  | ZObject shape =>
      match v with
      | JObj _ => forallb (fun ks => accepts (snd ks) (field (fst ks) v)) shape
      | _ => false
      end
  | ZUnion opts => existsb (fun s => accepts s v) opts
  end.

End Zod.

(** ** types/strategy.ts *)

Module StrategyTypes.
Import Js.

Inductive StrategyType := PromptBasedStrategy | GridStrategy.
Inductive StrategyStatus := Running | Stopped.
Inductive TradingMode := Live | Virtual.
Inductive PositionType := LONG | SHORT.
Inductive ActionKind := open_long | open_short | close_long | close_short.
Inductive Side := BUY | SELL.

(** The string literal each member of a union type is. *)
Definition strategy_type_str (t : StrategyType) : string :=
  match t with
  | PromptBasedStrategy => "PromptBasedStrategy"
  | GridStrategy => "GridStrategy"
  end.

Definition status_str (s : StrategyStatus) : string :=
  match s with Running => "running" | Stopped => "stopped" end.

Definition trading_mode_str (m : TradingMode) : string :=
  match m with Live => "live" | Virtual => "virtual" end.

Definition action_str (a : ActionKind) : string :=
  match a with
  | open_long => "open_long"
  | open_short => "open_short"
  | close_long => "close_long"
  | close_short => "close_short"
  end.


Record Strategy := {
  strategy_id : string;
  strategy_name : string;
  strategy_type : StrategyType;
  status : StrategyStatus;
  trading_mode : TradingMode;
  unrealized_pnl : float;
  unrealized_pnl_pct : float;
  created_at : string;
  exchange_id : string;
  model_id : string
}.

Record StrategyAction := {
  instruction_id : string;
  symbol : string;
  action : ActionKind;
  action_display : string;
  side : Side;
  quantity : float;
  leverage : float;
  entry_price : float;
  exit_price : option float;
  entry_at : string;
  exit_at : option string;
  fee_cost : float;
  realized_pnl : float;
  realized_pnl_pct : float;
  rationale : string;
  holding_time_ms : float
}.

Record PortfolioSummary := {
  cash : float;
  total_value : float;
  total_pnl : float
}.

Record ExchangeAsset := {
  coin_id : float;
  coin_name : string;
  available : float;
  frozen : float;
  equity : float;
  asset_unrealized_pnl : float      (* ExchangeAsset.unrealized_pnl *)
}.

Record StrategyAssets := {
  assets_strategy_id : string;      (* StrategyAssets.strategy_id *)
  assets_exchange_id : string;      (* StrategyAssets.exchange_id *)
  assets : list ExchangeAsset
}.

(** [account], [collateral] and [position] are opaque records the panel
    never reads. *)
Record AccountInfo := {
  account_strategy_id : string;     (* AccountInfo.strategy_id *)
  account_exchange_id : string;     (* AccountInfo.exchange_id *)
  total_equity : float;
  total_available : float;
  total_frozen : float
}.

End StrategyTypes.

(** ** constants/stock.ts, types/stock.ts, store/settings-store.ts *)

Module Stock.

Definition GREEN_COLOR := "#15803d".
Definition RED_COLOR := "#E25C5C".
Definition NEUTRAL_COLOR := "#707070".

Inductive StockChangeType := positive | negative | neutral.
Inductive StockColorMode := GREEN_UP_RED_DOWN | RED_UP_GREEN_DOWN.

(** [useStockColors()[t]] under the colour mode of the settings store. *)
Definition useStockColors (colorMode : StockColorMode) (t : StockChangeType) : string :=
  match colorMode with
  | RED_UP_GREEN_DOWN =>
      match t with
      | positive => RED_COLOR
      | negative => GREEN_COLOR
      | neutral => NEUTRAL_COLOR
      end
  | GREEN_UP_RED_DOWN =>
      match t with
      | positive => GREEN_COLOR
      | negative => RED_COLOR
      | neutral => NEUTRAL_COLOR
      end
  end.

Definition GREEN_GRADIENT : string * string :=
  ("rgba(21, 128, 61, 0.6)", "rgba(21, 128, 61, 0)").
Definition RED_GRADIENT : string * string :=
  ("rgba(226, 92, 92, 0.5)", "rgba(226, 92, 92, 0)").
Definition NEUTRAL_GRADIENT : string * string :=
  ("rgba(112, 112, 112, 0.5)", "rgba(112, 112, 112, 0)").

Record Badge := { bg : string; text : string }.

Definition GREEN_BADGE : Badge := {| bg := "#f0fdf4"; text := "#15803d" |}.
Definition RED_BADGE : Badge := {| bg := "#FFEAEA"; text := "#E25C5C" |}.
Definition NEUTRAL_BADGE : Badge := {| bg := "#F5F5F5"; text := "#707070" |}.

(** [useStockGradientColors()[t]]. *)
Definition useStockGradientColors (colorMode : StockColorMode) (t : StockChangeType)
  : string * string :=
  match colorMode with
  | RED_UP_GREEN_DOWN =>
      match t with
      | positive => RED_GRADIENT
      | negative => GREEN_GRADIENT
      | neutral => NEUTRAL_GRADIENT
      end
  | GREEN_UP_RED_DOWN =>
      match t with
      | positive => GREEN_GRADIENT
      | negative => RED_GRADIENT
      | neutral => NEUTRAL_GRADIENT
      end
  end.

(** [useStockBadgeColors()[t]]. *)
Definition useStockBadgeColors (colorMode : StockColorMode) (t : StockChangeType)
  : Badge :=
  match colorMode with
  | RED_UP_GREEN_DOWN =>
      match t with
      | positive => RED_BADGE
      | negative => GREEN_BADGE
      | neutral => NEUTRAL_BADGE
      end
  | GREEN_UP_RED_DOWN =>
      match t with
      | positive => GREEN_BADGE
      | negative => RED_BADGE
      | neutral => NEUTRAL_BADGE
      end
  end.

(** The change type with up and down exchanged. *)
Definition mirrored (t : StockChangeType) : StockChangeType :=
  match t with
  | positive => negative
  | negative => positive
  | neutral => neutral
  end.

End Stock.

(** ** lib/utils.ts *)

Module Utils.
Import Stock.

Section WithIntl.
(** [new Intl.NumberFormat("en-US", {minimumFractionDigits: 0,
    maximumFractionDigits: decimals, useGrouping: false}).format(x)],
    the platform's formatter. *)
Variable intl_format : nat -> float -> string.

Definition numberFixed (number : option float) (decimals : nat) : string :=
  match number with
  | None => "-"
  | Some x => intl_format decimals x
  end.

Definition formatChange (changePercent : option float) (suffix : string)
           (decimals : nat) : string :=
  match changePercent with
  | None => "N/A"
  | Some x =>
      let sign := if Js.gt x 0%float then "+" else "-" in
      let value := numberFixed (Some (PrimFloat.abs x)) decimals in
      if String.eqb value "0" then value ++ suffix
      else sign ++ value ++ suffix
  end.
End WithIntl.

(** A formatter in the style of the platform's, to run the definitions
    above on examples: it rounds the exact binary value to [decimals]
    fraction digits (ties up), prints no trailing zero and no grouping.
    It is not the platform's formatter, which rounds the shortest decimal
    text of the number (1.005 prints as 1.01 there and as 1 here) and
    prints infinity as a sign of its own; no theorem is stated about it,
    the examples use it where the two agree. *)
Definition digits (n : N) : string := NilZero.string_of_uint (N.to_uint n).

Fixpoint pad_left (width : nat) (s : string) : string :=
  if (width <=? String.length s)%nat then s
  else match width with
       | O => s
       | S w => String "0" (pad_left w s)
       end.

Fixpoint strip_zeros (s : string) : string :=
  match s with
  | EmptyString => EmptyString
  | String c s' =>
      match strip_zeros s' with
      | EmptyString => if Ascii.eqb c "0" then EmptyString else String c EmptyString
      | t => String c t
      end
  end.

(** [round(m * 2^e * 10^d)]. *)
Definition scaled (m : BinNums.positive) (e : Z) (d : nat) : N :=
  let n := (Z.pos m * 10 ^ Z.of_nat d)%Z in
  if (0 <=? e)%Z then Z.to_N (n * 2 ^ e)
  else let q := (2 ^ (- e))%Z in Z.to_N ((2 * n + q) / (2 * q)).

Definition en_US_format (decimals : nat) (x : float) : string :=
  match Prim2SF x with
  | S754_nan => "NaN"
  | S754_infinity s => if s then "-Infinity" else "Infinity"
  | S754_zero s => if s then "-0" else "0"
  | S754_finite s m e =>
      let n := scaled m e decimals in
      let unit := (10 ^ N.of_nat decimals)%N in
      let frac := strip_zeros (pad_left decimals (digits (n mod unit))) in
      let body : string :=
        (digits (n / unit) ++ (if String.eqb frac "" then "" else "." ++ frac))%string in
      if s then ("-" ++ body)%string else body
  end.

Definition getChangeType (changePercent : option float) : StockChangeType :=
  match changePercent with
  | None => neutral
  | Some x =>
      if PrimFloat.eqb x 0%float then neutral
      else if Js.gt x 0%float then positive else negative
  end.

(** [/[-/]/]: the separators of a trading pair. *)
Definition is_separator (c : ascii) : bool := Ascii.eqb c "-" || Ascii.eqb c "/".

(** [symbol.split(/[-/]/)[0]]: the text before the first separator. *)
Fixpoint before_separator (symbol : string) : string :=
  match symbol with
  | EmptyString => EmptyString
  | String c rest =>
      if is_separator c then EmptyString else String c (before_separator rest)
  end.

Definition getCoinCapIcon (symbol : string) : string :=
  let fixedSymbol := Js.toLowerCase (before_separator symbol) in
  ("https://assets.coincap.io/assets/icons/" ++ fixedSymbol ++ "@2x.png")%string.

(** The first character of a text, if any. *)
Definition first_char (s : string) : option ascii :=
  match s with
  | EmptyString => None
  | String c _ => Some c
  end.

End Utils.

(** ** api/strategy.ts *)

Module Api.
Import Js.

Record Request := {
  req_method : string;
  req_path : string;
  req_body : JsVal
}.

(** [useCreateStrategy().mutateAsync]. *)
Definition createStrategy (data : JsVal) : Request :=
  {| req_method := "POST"; req_path := "/strategies/create"; req_body := data |}.

End Api.

(** ** strategy-items/modals/create-strategy-modal.tsx *)

Module CreateStrategyModal.
Import Js Zod StrategyTypes Api.

Inductive StepNumber := Step1 | Step2 | Step3.

(** Step 1 Schema: AI Models *)
Definition step1Schema : Schema :=
  ZObject (obj_lit [
    ("provider", ZString 1);
    ("model_id", ZString 1);
    ("api_key", ZString 1)
  ]).

(** Base schema with all fields optional (empty strings allowed) *)
Definition baseStep2Fields : list (string * Schema) := [
  ("exchange_id", ZString 0);
  ("api_key", ZString 0);
  ("secret_key", ZString 0);
  ("passphrase", ZString 0);
  ("wallet_address", ZString 0);
  ("private_key", ZString 0)
].

(** Step 2 Schema: Exchanges *)
Definition step2Schema : Schema :=
  ZUnion [
    (* Virtual Trading *)
    ZObject (obj_lit (baseStep2Fields ++ [
      ("trading_mode", ZLiteral "virtual")
    ]));
    (* Live Trading - Hyperliquid *)
    ZObject (obj_lit (baseStep2Fields ++ [
      ("trading_mode", ZLiteral "live");
      ("exchange_id", ZLiteral "hyperliquid");
      ("wallet_address", ZString 1);
      ("private_key", ZString 1)
    ]));
    (* Live Trading - OKX, Coinbase & WEEX (Require Passphrase) *)
    ZObject (obj_lit (baseStep2Fields ++ [
      ("trading_mode", ZLiteral "live");
      ("exchange_id", ZEnum ["okx"; "coinbaseexchange"; "weex"]);
      ("api_key", ZString 1);
      ("secret_key", ZString 1);
      ("passphrase", ZString 1)
    ]));
    (* Live Trading - Standard Exchanges *)
    ZObject (obj_lit (baseStep2Fields ++ [
      ("trading_mode", ZLiteral "live");
      ("exchange_id", ZEnum ["binance"; "blockchaincom"; "gate"; "mexc"]);
      ("api_key", ZString 1);
      ("secret_key", ZString 1)
    ]))
  ].

(** Step 3 Schema: Trading Strategy *)
Definition step3Schema : Schema :=
  ZObject (obj_lit [
    ("strategy_type", ZEnum ["PromptBasedStrategy"; "GridStrategy"]);
    ("strategy_name", ZString 1);
    ("initial_capital", ZNumber (Some 1%float) None);
    ("max_leverage", ZNumber (Some 1%float) (Some 5%float));
    ("symbols", ZArray (ZString 0) 1);
    ("template_id", ZString 1)
  ]).

(** The values the three forms hold. *)
Record Step1Values := {
  f1_provider : string;
  f1_model_id : string;
  f1_api_key : string
}.

Record Step2Values := {
  f2_trading_mode : TradingMode;
  f2_exchange_id : string;
  f2_api_key : string;
  f2_secret_key : string;
  f2_passphrase : string;
  f2_wallet_address : string;
  f2_private_key : string
}.

Record Step3Values := {
  f3_strategy_type : string;
  f3_strategy_name : string;
  f3_initial_capital : float;
  f3_max_leverage : float;
  f3_symbols : list string;
  f3_template_id : string
}.

(** [form.state.values] as a plain object, keys in the order of
    [defaultValues]. *)
Definition form1_values (v : Step1Values) : JsVal :=
  JObj (obj_lit [
    ("provider", JStr (f1_provider v));
    ("model_id", JStr (f1_model_id v));
    ("api_key", JStr (f1_api_key v))
  ]).

Definition form2_values (v : Step2Values) : JsVal :=
  JObj (obj_lit [
    ("trading_mode", JStr (trading_mode_str (f2_trading_mode v)));
    ("exchange_id", JStr (f2_exchange_id v));
    ("api_key", JStr (f2_api_key v));
    ("secret_key", JStr (f2_secret_key v));
    ("passphrase", JStr (f2_passphrase v));
    ("wallet_address", JStr (f2_wallet_address v));
    ("private_key", JStr (f2_private_key v))
  ]).

Definition form3_values (v : Step3Values) : JsVal :=
  JObj (obj_lit [
    ("strategy_type", JStr (f3_strategy_type v));
    ("strategy_name", JStr (f3_strategy_name v));
    ("initial_capital", JNum (f3_initial_capital v));
    ("max_leverage", JNum (f3_max_leverage v));
    ("symbols", JArr (map JStr (f3_symbols v)));
    ("template_id", JStr (f3_template_id v))
  ]).

(** [form3]'s [onSubmit]: the payload and the call of [createStrategy]. *)
Definition form3_onSubmit (v1 : Step1Values) (v2 : Step2Values)
           (value : Step3Values) : Request :=
  let payload := JObj (obj_lit [
    ("llm_model_config", form1_values v1);
    ("exchange_config", form2_values v2);
    ("trading_config", form3_values value)
  ]) in
  createStrategy payload.

Record Modal := {
  isOpen : bool;
  currentStep : StepNumber;
  form1 : Step1Values;
  form2 : Step2Values;
  form3 : Step3Values
}.

Section Defaults.
(** [TRADING_SYMBOLS] of constants/agent and the ids of the prompts the
    server lists. *)
Variable TRADING_SYMBOLS : list string.
Variable prompt_ids : list string.

Definition form1_defaults : Step1Values :=
  {| f1_provider := ""; f1_model_id := ""; f1_api_key := "" |}.

Definition form2_defaults : Step2Values :=
  {| f2_trading_mode := Live; f2_exchange_id := "okx"; f2_api_key := "";
     f2_secret_key := ""; f2_passphrase := ""; f2_wallet_address := "";
     f2_private_key := "" |}.

Definition form3_defaults : Step3Values :=
  {| f3_strategy_type := "PromptBasedStrategy"; f3_strategy_name := "";
     f3_initial_capital := 1000%float; f3_max_leverage := 2%float;
     f3_symbols := TRADING_SYMBOLS;
     f3_template_id := match prompt_ids with p :: _ => p | [] => "" end |}.

Definition resetAll (m : Modal) : Modal :=
  {| isOpen := false; currentStep := Step1; form1 := form1_defaults;
     form2 := form2_defaults; form3 := form3_defaults |}.

Definition setCurrentStep (s : StepNumber) (m : Modal) : Modal :=
  {| isOpen := isOpen m; currentStep := s; form1 := form1 m;
     form2 := form2 m; form3 := form3 m |}.

(** The footer's Next / Confirm button: [handleSubmit] of the current
    step's form validates with the step's schema and runs [onSubmit] only
    when the values pass.  The result is the next state of the modal and
    the request sent, if any. *)
Definition handleNext (m : Modal) : Modal * option Request :=
  match currentStep m with
  | Step1 =>
      if accepts step1Schema (form1_values (form1 m))
      then (setCurrentStep Step2 m, None) else (m, None)
  | Step2 =>
      if accepts step2Schema (form2_values (form2 m))
      then (setCurrentStep Step3 m, None) else (m, None)
  | Step3 =>
      if accepts step3Schema (form3_values (form3 m))
      then (resetAll m, Some (form3_onSubmit (form1 m) (form2 m) (form3 m)))
      else (m, None)
  end.
End Defaults.

(** *** The step indicator *)

Definition step_number (s : StepNumber) : nat :=
  match s with Step1 => 1 | Step2 => 2 | Step3 => 3 end.

Definition STEPS : list (StepNumber * string) :=
  [(Step1, "AI Models"); (Step2, "Exchanges"); (Step3, "Trading strategy")].

Record StepState := {
  isCompleted : bool;
  isCurrent : bool;
  isActive : bool;
  isLast : bool
}.

Definition getStepState (currentStep_ stepNumber : StepNumber) : StepState :=
  {| isCompleted := (step_number stepNumber <? step_number currentStep_)%nat;
     isCurrent := (step_number stepNumber =? step_number currentStep_)%nat;
     isActive := (step_number stepNumber <=? step_number currentStep_)%nat;
     isLast := (step_number stepNumber =? List.length STEPS)%nat |}.

(** What [StepIndicator] draws for one step: a check mark or the number, the
    title in the active or the faded tone, and the connector to the next
    step (none after the last step), dark once the step is completed. *)
Record StepView := {
  shows_check : bool;
  number_highlighted : bool;
  title_active : bool;
  connector : option bool
}.

Definition StepIndicator (currentStep_ : StepNumber) : list StepView :=
  map (fun step =>
         let st := getStepState currentStep_ (fst step) in
         {| shows_check := isCompleted st;
            number_highlighted := negb (isCompleted st) && isCurrent st;
            title_active := isActive st;
            connector := if negb (isLast st) then Some (isCompleted st) else None |})
      STEPS.

(** *** The modal as a whole *)

Definition handleBack (m : Modal) : Modal :=
  match currentStep m with
  | Step1 => m
  | Step2 => setCurrentStep Step1 m
  | Step3 => setCurrentStep Step2 m
  end.

Definition setOpen (b : bool) (m : Modal) : Modal :=
  {| isOpen := b; currentStep := currentStep m; form1 := form1 m;
     form2 := form2 m; form3 := form3 m |}.

Definition setForm1 (v : Step1Values) (m : Modal) : Modal :=
  {| isOpen := isOpen m; currentStep := currentStep m; form1 := v;
     form2 := form2 m; form3 := form3 m |}.

Definition setForm2 (v : Step2Values) (m : Modal) : Modal :=
  {| isOpen := isOpen m; currentStep := currentStep m; form1 := form1 m;
     form2 := v; form3 := form3 m |}.

Definition setForm3 (v : Step3Values) (m : Modal) : Modal :=
  {| isOpen := isOpen m; currentStep := currentStep m; form1 := form1 m;
     form2 := form2 m; form3 := v |}.

(** What can happen to the modal.  A form is on screen (and its fields and
    effects alive) on its own step only; [form3] can also change after a
    prompt has been created from the strategy form, so its edits are taken
    at any step. *)
Inductive Event :=
| EditAIModel (v : Step1Values)
| EditExchange (v : Step2Values)
| EditStrategy (v : Step3Values)
| ClickNext (resolved : bool)      (* whether [createStrategy] resolved *)
| ClickLeft                        (* Cancel on step 1, Back otherwise *)
| ClickClose
| OpenChange (b : bool).

Section Wizard.
Variable TRADING_SYMBOLS : list string.
Variable prompt_ids : list string.

Definition initial_modal : Modal :=
  {| isOpen := false; currentStep := Step1;
     form1 := form1_defaults; form2 := form2_defaults;
     form3 := form3_defaults TRADING_SYMBOLS prompt_ids |}.

(** One event: the next state and the request sent, if any.  A rejected
    [createStrategy] leaves the modal as it is ([resetAll] is not reached). *)
Definition react (m : Modal) (e : Event) : Modal * option Request :=
  match e with
  | EditAIModel v =>
      (match currentStep m with Step1 => setForm1 v m | _ => m end, None)
  | EditExchange v =>
      (match currentStep m with Step2 => setForm2 v m | _ => m end, None)
  | EditStrategy v => (setForm3 v m, None)
  | ClickNext resolved =>
      match handleNext TRADING_SYMBOLS prompt_ids m with
      | (m', Some r) => (if resolved then m' else m, Some r)
      | (m', None) => (m', None)
      end
  | ClickLeft =>
      (match currentStep m with
       | Step1 => resetAll TRADING_SYMBOLS prompt_ids m
       | _ => handleBack m
       end, None)
  | ClickClose => (resetAll TRADING_SYMBOLS prompt_ids m, None)
  | OpenChange b => (setOpen b m, None)
  end.

(** A sequence of events: the last state and the requests sent, in order. *)
Fixpoint run (m : Modal) (events : list Event) : Modal * list Request :=
  match events with
  | [] => (m, [])
  | e :: rest =>
      let (m1, sent) := react m e in
      let (m2, later) := run m1 rest in
      (m2, match sent with Some r => r :: later | None => later end)
  end.
End Wizard.

(** Past step 1 the model form is valid; on step 3 the exchange form is. *)
Definition steps_validated (m : Modal) : Prop :=
  (currentStep m <> Step1 -> accepts step1Schema (form1_values (form1 m)) = true)
  /\ (currentStep m = Step3 -> accepts step2Schema (form2_values (form2 m)) = true).

(** The three parts of a request pass the three schemas. *)
Definition well_formed (r : Request) : bool :=
  accepts step1Schema (field "llm_model_config" (req_body r))
  && accepts step2Schema (field "exchange_config" (req_body r))
  && accepts step3Schema (field "trading_config" (req_body r)).

(** A session that fills the three steps for an OKX account and confirms. *)
Definition okx_session : list Event :=
  [OpenChange true;
   EditAIModel {| f1_provider := "openrouter";
                  f1_model_id := "deepseek-ai/deepseek-v3.1";
                  f1_api_key := "sk-1" |};
   ClickNext true;
   EditExchange {| f2_trading_mode := Live; f2_exchange_id := "okx";
                   f2_api_key := "k"; f2_secret_key := "s"; f2_passphrase := "p";
                   f2_wallet_address := ""; f2_private_key := "" |};
   ClickNext true;
   EditStrategy {| f3_strategy_type := "PromptBasedStrategy";
                   f3_strategy_name := "momentum";
                   f3_initial_capital := 1000%float;
                   f3_max_leverage := 2%float;
                   f3_symbols := ["BTC-USDT"];
                   f3_template_id := "default" |};
   ClickNext false].

(** [payload.trading_config] of a request. *)
Definition trading_config (r : Request) : JsVal :=
  field "trading_config" (req_body r).

(** The request carries every one of [names] as a key of its
    [trading_config]. *)
Definition carries (r : Request) (names : list string) : bool :=
  match trading_config r with
  | JObj fields => forallb (fun k => obj_has k fields) names
  | _ => false
  end.

(** The modal on its last step, filled in for a virtual strategy. *)
Definition filled_modal : Modal :=
  {| isOpen := true;
     currentStep := Step3;
     form1 := {| f1_provider := "openrouter";
                 f1_model_id := "deepseek-ai/deepseek-v3.1";
                 f1_api_key := "sk-1" |};
     form2 := {| f2_trading_mode := Virtual; f2_exchange_id := "";
                 f2_api_key := ""; f2_secret_key := ""; f2_passphrase := "";
                 f2_wallet_address := ""; f2_private_key := "" |};
     form3 := {| f3_strategy_type := "PromptBasedStrategy";
                 f3_strategy_name := "momentum";
                 f3_initial_capital := 1000%float;
                 f3_max_leverage := 2%float;
                 f3_symbols := ["BTC-USDT"; "ETH-USDT"];
                 f3_template_id := "default" |} |}.

End CreateStrategyModal.

(** ** strategy-items/trade-strategy-group.tsx *)

Module TradeStrategyGroup.
Import Js StrategyTypes Stock Utils.

(** The handler an [AlertDialogAction] is wired to. *)
Inductive Handler := onStart | onStop | onDelete.

Record AlertDialog := {
  trigger_label : option string;
  dialog_title : string;
  confirm_label : string;
  onConfirm : Handler
}.

Record CardView := {
  header_name : string;
  type_badge : option string;
  mode_badge : string;
  pnl_text : string;
  pnl_color : string;
  dialogs : list AlertDialog
}.

Definition start_dialog : AlertDialog :=
  {| trigger_label := Some "Stopped";
     dialog_title := "Start Trading Strategy?";
     confirm_label := "Confirm Start";
     onConfirm := onStart |}.

Definition stop_dialog : AlertDialog :=
  {| trigger_label := Some "Running";
     dialog_title := "Stop Trading Strategy?";
     confirm_label := "Confirm Stop";
     onConfirm := onStop |}.

Definition delete_dialog : AlertDialog :=
  {| trigger_label := None;
     dialog_title := "Delete Strategy?";
     confirm_label := "Confirm Delete";
     onConfirm := onDelete |}.

Section Card.
Variable intl_format : nat -> float -> string.
Variable colorMode : StockColorMode.

Definition TradeStrategyCard (strategy : Strategy) : CardView :=
  let changeType := getChangeType (Some (unrealized_pnl_pct strategy)) in
  {| header_name := strategy_name strategy;
     type_badge :=
       if String.eqb (strategy_type_str (strategy_type strategy)) ""
       then None else Some (strategy_type_str (strategy_type strategy));
     mode_badge :=
       if String.eqb (trading_mode_str (trading_mode strategy)) "live"
       then "Live" else "Virtual";
     pnl_text :=
       formatChange intl_format (Some (unrealized_pnl strategy)) "" 2
       ++ " (" ++
       formatChange intl_format (Some (unrealized_pnl_pct strategy)) "%" 2
       ++ ")";
     pnl_color := useStockColors colorMode changeType;
     dialogs :=
       (if String.eqb (status_str (status strategy)) "stopped"
        then start_dialog else stop_dialog)
       :: [delete_dialog] |}.
End Card.

Definition Handler_eqb (a b : Handler) : bool :=
  match a, b with
  | onStart, onStart | onStop, onStop | onDelete, onDelete => true
  | _, _ => false
  end.

(** The card offers a handler when one of its dialogs confirms into it. *)
Definition offers (h : Handler) (c : CardView) : bool :=
  existsb (fun d => Handler_eqb (onConfirm d) h) (dialogs c).

(** A card of the group with the props the group wires to it: whether it is
    the selected one, and the strategy (or its id) each callback passes
    on. *)
Record GroupItem := {
  item_key : string;
  item_strategy : Strategy;
  item_selected : bool;
  on_click : Strategy;
  on_start : string;
  on_stop : string;
  on_delete : string
}.

(** [TradeStrategyGroup]: the cards, or [None] for the "No trading
    strategies" placeholder. *)
Definition TradeStrategyGroup (strategies : list Strategy)
           (selectedStrategy : option Strategy) : option (list GroupItem) :=
  let hasStrategies := (0 <? List.length strategies)%nat in
  if hasStrategies then
    Some (map (fun strategy =>
                 {| item_key := strategy_id strategy;
                    item_strategy := strategy;
                    item_selected :=
                      match selectedStrategy with
                      | Some sel => String.eqb (strategy_id sel) (strategy_id strategy)
                      | None => false
                      end;
                    on_click := strategy;
                    on_start := strategy_id strategy;
                    on_stop := strategy_id strategy;
                    on_delete := strategy_id strategy |})
              strategies)
  else None.

End TradeStrategyGroup.

(** ** strategy-items/strategy-compose-list.tsx *)

Module StrategyComposeList.
Import Js StrategyTypes Stock Utils.

(** A coloured [<span>]. *)
Record Span := { span_text : string; span_color : string }.

Section Item.
Variable intl_format : nat -> float -> string.
Variable colorMode : StockColorMode.

(** The [useMemo] of [ActionItem]: [pnl_value] and [changeType]. *)
Definition pnl_memo (action_ : StrategyAction) : string * StockChangeType :=
  if negb (includes (action_str (action action_)) "close")
  then ("-", getChangeType None)
  else
    let changeType := getChangeType (Some (realized_pnl action_)) in
    let formatPnl := formatChange intl_format (Some (realized_pnl action_)) "" 4 in
    (formatPnl, changeType).

Definition pnl_span (action_ : StrategyAction) : Span :=
  {| span_text := fst (pnl_memo action_);
     span_color := useStockColors colorMode (snd (pnl_memo action_)) |}.

(** The span of the list row, present when [realized_pnl !== 0]. *)
Definition row_pnl (action_ : StrategyAction) : option Span :=
  if negb (PrimFloat.eqb (realized_pnl action_) 0%float)
  then Some (pnl_span action_) else None.

(** The span of the hover card's header. *)
Definition hover_pnl (action_ : StrategyAction) : Span := pnl_span action_.

(** Every realized-PnL span [ActionItem] puts on screen. *)
Definition displayed_pnl (action_ : StrategyAction) : list Span :=
  match row_pnl action_ with
  | Some s => [s; hover_pnl action_]
  | None => [hover_pnl action_]
  end.
End Item.

(** A closed long of the history list. *)
Definition closed_action : StrategyAction :=
  {| instruction_id := "i-1"; symbol := "BTC-USDT"; action := close_long;
     action_display := "CLOSE LONG"; side := SELL; quantity := 1%float;
     leverage := 2%float; entry_price := 50000%float;
     exit_price := Some 51000%float; entry_at := "2024-01-01 10:00:00";
     exit_at := Some "2024-01-01 11:00:00"; fee_cost := 0%float;
     realized_pnl := 1000%float; realized_pnl_pct := 2%float;
     rationale := "take profit"; holding_time_ms := 3600000%float |}.


(** The badge beside the "Trading History" title. *)
Definition header_badge (tradingMode : TradingMode) : string :=
  if String.eqb (trading_mode_str tradingMode) "live"
  then "Live Trading" else "Virtual Trading".

End StrategyComposeList.

(** ** strategy-items/portfolio-positions-group.tsx *)

Module PortfolioPositionsGroup.
Import Js StrategyTypes.

(** A cell of the price curve: [number | string]. *)
Inductive Cell := CStr (s : string) | CNum (x : float).

Definition Row := list Cell.

(** The props the derived values read ([positions] and [tradingMode] only
    reach the table below the chart). *)
Record Props := {
  summary : option PortfolioSummary;
  priceCurve : list Row;
  assets_ : option StrategyAssets;
  accountInfo : option AccountInfo;
  exchangeId : option string
}.

Definition hasAccountInfo (p : Props) : bool :=
  match accountInfo p with
  | Some ai => gt (total_equity ai) 0%float || gt (total_available ai) 0%float
  | None => false
  end.

Definition hasAssets (p : Props) : bool :=
  match assets_ p with
  | Some a => (0 <? List.length (assets a))%nat
  | None => false
  end.

Definition isWeex (p : Props) : bool :=
  match exchangeId p with
  | Some e => String.eqb (toLowerCase e) "weex"
  | None => false
  end.

(** The three accumulators of the loop over [assets.assets]. *)
Record Totals := {
  assetsTotalEquity : float;
  assetsAvailableBalance : float;
  assetsTotalPnl : float
}.

Definition no_totals : Totals :=
  {| assetsTotalEquity := 0%float; assetsAvailableBalance := 0%float;
     assetsTotalPnl := 0%float |}.

Definition accumulate (t : Totals) (asset : ExchangeAsset) : Totals :=
  {| assetsTotalEquity :=
       PrimFloat.add (assetsTotalEquity t) (or_zero (equity asset));
     assetsAvailableBalance :=
       PrimFloat.add (assetsAvailableBalance t) (or_zero (available asset));
     assetsTotalPnl :=
       PrimFloat.add (assetsTotalPnl t) (or_zero (asset_unrealized_pnl asset)) |}.

Definition is_quote_coin (coinName : string) : bool :=
  String.eqb coinName "USDT" || String.eqb coinName "USD"
  || String.eqb coinName "USDC".

(** One turn of [for (const asset of assets.assets)]. *)
Definition loop_body (weex : bool) (t : Totals) (asset : ExchangeAsset) : Totals :=
  let coinName := toUpperCase (coin_name asset) in
  if weex then
    if is_quote_coin coinName then accumulate t asset else t
  else accumulate t asset.

Definition totals (p : Props) : Totals :=
  if negb (hasAccountInfo p) && hasAssets p then
    match assets_ p with
    | Some a => fold_left (loop_body (isWeex p)) (assets a) no_totals
    | None => no_totals
    end
  else no_totals.

Definition useAccountInfo (p : Props) : bool := hasAccountInfo p.

Definition useAssetsData (p : Props) : bool :=
  negb (hasAccountInfo p) && hasAssets p
  && (gt (assetsTotalEquity (totals p)) 0%float
      || gt (assetsAvailableBalance (totals p)) 0%float).

Definition displayTotalEquity (p : Props) : float :=
  if useAccountInfo p then
    match accountInfo p with Some ai => total_equity ai | None => 0%float end
  else if useAssetsData p then assetsTotalEquity (totals p)
  else match summary p with Some s => total_value s | None => 0%float end.

Definition displayAvailableBalance (p : Props) : float :=
  if useAccountInfo p then
    match accountInfo p with Some ai => total_available ai | None => 0%float end
  else if useAssetsData p then assetsAvailableBalance (totals p)
  else match summary p with Some s => cash s | None => 0%float end.

Definition displayTotalPnl (p : Props) : float :=
  if useAssetsData p then assetsTotalPnl (totals p)
  else match summary p with Some s => total_pnl s | None => 0%float end.

Definition useExchangeData (p : Props) : bool :=
  useAccountInfo p || useAssetsData p.

(** The assets the loop counts: the USDT, USD and USDC rows on Weex, every
    row elsewhere. *)
Definition counted_assets (weex : bool) (l : list ExchangeAsset) : list ExchangeAsset :=
  if weex then List.filter (fun a => is_quote_coin (toUpperCase (coin_name a))) l
  else l.

(** The sum of a column, left to right from 0, a falsy entry counting 0. *)
Definition sum_of (column : ExchangeAsset -> float) (l : list ExchangeAsset) : float :=
  fold_left (fun acc a => PrimFloat.add acc (or_zero (column a))) l 0%float.

(** Total Equity as the description of the panel states it: the account's
    total equity when the account info counts; else the equity sum when
    assets are present and that sum is positive; else the summary's total
    value, 0 without a summary. *)
Definition stated_total_equity (p : Props) : float :=
  if hasAccountInfo p then
    match accountInfo p with Some ai => total_equity ai | None => 0%float end
  else
    let equity_sum :=
      match assets_ p with
      | Some a => sum_of equity (counted_assets (isWeex p) (assets a))
      | None => 0%float
      end in
    if hasAssets p && gt equity_sum 0%float then equity_sum
    else match summary p with Some s => total_value s | None => 0%float end.

(** An account that reports no equity on its only asset but an available
    balance, next to a summary worth 100. *)
Definition idle_asset : ExchangeAsset :=
  {| coin_id := 1%float; coin_name := "USDT"; available := 5%float;
     frozen := 0%float; equity := 0%float; asset_unrealized_pnl := 0%float |}.

Definition idle_props : Props :=
  {| summary := Some {| cash := 100%float; total_value := 100%float;
                        total_pnl := 0%float |};
     priceCurve := [];
     assets_ := Some {| assets_strategy_id := "s-1";
                        assets_exchange_id := "weex";
                        assets := [idle_asset] |};
     accountInfo := None;
     exchangeId := Some "weex" |}.

Section Curve.
(** [String(x)] on a number. *)
Variable number_toString : float -> string.

(** [String(row[0])]. *)
Definition row_time (row : Row) : string :=
  match row with
  | [] => "undefined"
  | CStr s :: _ => s
  | CNum x :: _ => number_toString x
  end.

(** [for (let i = start; i < curve.length; i++) if (p(curve[i])) { .. = i; break; }]:
    the index the loop stops at, if it stops. *)
Fixpoint scan (p : Row -> bool) (rows : list Row) (i : nat) : option nat :=
  match rows with
  | [] => None
  | row :: rest => if p row then Some i else scan p rest (S i)
  end.

Definition first_from (start : nat) (p : Row -> bool) (curve : list Row) : option nat :=
  scan p (drop start curve) start.

(** [curve.splice(i, 0, row)]. *)
Definition splice_in (i : nat) (row : Row) (curve : list Row) : list Row :=
  take i curve ++ row :: drop i curve.

(** The body of the arrow function that builds [enhancedPriceCurve];
    [timeStr] is the clock's [toISOString().slice(0, 19).replace('T', ' ')]. *)
Definition enhance (priceCurve_ : list Row) (timeStr : string)
           (displayTotalEquity_ : float) : list Row :=
  let curve := priceCurve_ in
  let point := [CStr timeStr; CNum displayTotalEquity_] in
  if (List.length curve =? 0)%nat then
    [[CStr "Time"; CStr "Portfolio Value"]; point]
  else
    let currentMinute := slice0 16 timeStr in
    let existingIndex : Z :=
      match first_from 1
              (fun row => String.eqb (slice0 16 (row_time row)) currentMinute)
              curve with
      | Some i => Z.of_nat i
      | None => (-1)%Z
      end in
    if (0 <? existingIndex)%Z then
      <[Z.to_nat existingIndex := point]> curve
    else
      let insertIndex :=
        match first_from 1 (fun row => String.ltb timeStr (row_time row)) curve with
        | Some i => i
        | None => List.length curve
        end in
      splice_in insertIndex point curve.

Definition enhancedPriceCurve (p : Props) (timeStr : string) : list Row :=
  if useExchangeData p && gt (displayTotalEquity p) 0%float
  then enhance (priceCurve p) timeStr (displayTotalEquity p)
  else priceCurve p.

(** The data rows (the rows after the header) are in non-decreasing order
    of their time strings. *)
Fixpoint ascending (rows : list Row) : bool :=
  match rows with
  | [] => true
  | r1 :: rest =>
      match rest with
      | [] => true
      | r2 :: _ => String.leb (row_time r1) (row_time r2) && ascending rest
      end
  end.

Definition sorted_by_time (curve : list Row) : bool := ascending (tail curve).

(** The row's time lies in the minute of [timeStr]. *)
Definition in_minute (timeStr : string) (row : Row) : bool :=
  String.eqb (slice0 16 (row_time row)) (slice0 16 timeStr).
End Curve.

(** A curve with two points in the minute 10:00, seen at 10:00:50 by an
    account worth 1200 on the exchange. *)
Definition busy_curve : list Row :=
  [[CStr "Time"; CStr "Portfolio Value"];
   [CStr "2024-01-01 09:59:30"; CNum 1000%float];
   [CStr "2024-01-01 10:00:05"; CNum 1100%float];
   [CStr "2024-01-01 10:00:30"; CNum 1150%float]].

Definition busy_props : Props :=
  {| summary := None;
     priceCurve := busy_curve;
     assets_ := None;
     accountInfo := Some {| account_strategy_id := "s-1";
                            account_exchange_id := "weex";
                            total_equity := 1200%float;
                            total_available := 800%float;
                            total_frozen := 0%float |};
     exchangeId := Some "weex" |}.

(** The same account with a curve that stops before the current minute. *)
Definition calm_props : Props :=
  {| summary := None;
     priceCurve := [[CStr "Time"; CStr "Portfolio Value"];
                    [CStr "2024-01-01 09:58:30"; CNum 1000%float];
                    [CStr "2024-01-01 09:59:30"; CNum 1100%float]];
     assets_ := None;
     accountInfo := accountInfo busy_props;
     exchangeId := Some "weex" |}.

(** The note under each of the three figures: [useExchangeData &&
    exchangeId && "From " + exchangeId.toUpperCase()]. *)
Definition source_note (p : Props) : option string :=
  match exchangeId p with
  | Some e =>
      if useExchangeData p && nonempty e
      then Some ("From " ++ toUpperCase e)%string else None
  | None => None
  end.

(** The three figures with their notes, as the panel lays them out. *)
Record Figure := { caption : string; amount : float; note : option string }.

Definition figures (p : Props) : list Figure :=
  [{| caption := "Total Equity"; amount := displayTotalEquity p;
      note := source_note p |};
   {| caption := "Available Balance"; amount := displayAvailableBalance p;
      note := source_note p |};
   {| caption := "Total P&L"; amount := displayTotalPnl p;
      note := source_note p |}].

Section Chart.
Variable number_toString : float -> string.

(** The chart is drawn when the enhanced curve has a row; otherwise the
    "No portfolio value data" placeholder is. *)
Definition hasEnhancedPriceCurve (p : Props) (timeStr : string) : bool :=
  (0 <? List.length (enhancedPriceCurve number_toString p timeStr))%nat.
End Chart.

(** The assets the panel counts for these props. *)
Definition counted (p : Props) : list ExchangeAsset :=
  match assets_ p with
  | Some a => counted_assets (isWeex p) (assets a)
  | None => []
  end.

(** [summary?.field ?? 0]. *)
Definition summary_or_zero (column : PortfolioSummary -> float) (p : Props) : float :=
  match summary p with Some s => column s | None => 0%float end.

(** The props with another list of exchange assets. *)
Definition with_assets (p : Props) (l : list ExchangeAsset) : Props :=
  {| summary := summary p;
     priceCurve := priceCurve p;
     assets_ := match assets_ p with
                | Some a => Some {| assets_strategy_id := assets_strategy_id a;
                                    assets_exchange_id := assets_exchange_id a;
                                    assets := l |}
                | None => None
                end;
     accountInfo := accountInfo p;
     exchangeId := exchangeId p |}.

Definition usdt_asset : ExchangeAsset :=
  {| coin_id := 2%float; coin_name := "usdt"; available := 40%float;
     frozen := 0%float; equity := 50%float; asset_unrealized_pnl := 1%float |}.

(** A Weex account holding USDT and a coin that is no quote currency. *)
Definition weex_props : Props :=
  {| summary := None;
     priceCurve := [];
     assets_ := Some {| assets_strategy_id := "s-1";
                        assets_exchange_id := "weex";
                        assets := [usdt_asset] |};
     accountInfo := None;
     exchangeId := Some "WEEX" |}.

Definition btc_asset : ExchangeAsset :=
  {| coin_id := 1%float; coin_name := "BTC"; available := 2%float;
     frozen := 0%float; equity := 3%float; asset_unrealized_pnl := 0.5%float |}.

End PortfolioPositionsGroup.

(** ** common/trading: instructions, guardrails and the portfolio ledger

    The Python package [valuecell.agents.common.trading] is described by its
    README only; its modules are modelled from the specification. *)

Module Trading.
Local Open Scope Q_scope.

(** Modelled from the spec: the data model of section 3 (the models module
    of common/trading is not among the sources; its README lists the same
    fields). *)
Inductive TradeSide := BUY | SELL.
Inductive TxStatus := FILLED | PARTIAL | REJECTED | ERROR.
Inductive TradeType := LONG | SHORT.

Record Constraints := {
  max_leverage : Q;
  max_positions : nat
}.


Record TxResult := {
  tx_instruction_id : string;
  tx_instrument : string;
  tx_side : TradeSide;
  tx_status : TxStatus;
  requested_qty : Q;
  filled_qty : Q;
  avg_exec_price : option Q;
  tx_fee_cost : option Q;
  tx_leverage : option Q
}.

(** Modelled from the spec: a position.  Mark price, unrealized PnL and
    entry timestamp follow the market features and the clock and are left
    to the view's consumers. *)
Record PositionSnapshot := {
  pos_quantity : Q;             (* signed: positive long, negative short *)
  avg_price : Q;
  pos_leverage : option Q
}.

Record TradeHistoryEntry := {
  h_instruction_id : string;
  h_instrument : string;
  h_side : TradeSide;
  h_type : TradeType;
  h_quantity : Q;
  h_entry_price : Q;
  h_exit_price : Q;
  h_realized_pnl : Q
}.

(** Modelled from the spec: the state the portfolio service owns, with the
    close events it has emitted. *)
Record Ledger := {
  strategy_id : string;
  account_balance : Q;
  positions : gmap string PositionSnapshot;
  constraints : Constraints;
  closes : list TradeHistoryEntry
}.

Record PortfolioView := {
  view_strategy_id : string;
  view_ts : Z;
  view_account_balance : Q;
  view_positions : gmap string PositionSnapshot;
  view_constraints : Constraints
}.

(** [a < b] on rationals. *)
Definition Qltb (a b : Q) : bool := negb (Qle_bool b a).

(** [fee_cost or 0]. *)
Definition fee_of (tx : TxResult) : Q :=
  match tx_fee_cost tx with Some f => f | None => 0 end.

(** Modelled from the spec: [get_view] of the portfolio service
    (common/trading, portfolio module, not among the sources): a snapshot of
    the ledger at time [ts]. *)
Definition get_view (ts : Z) (l : Ledger) : PortfolioView :=
  {| view_strategy_id := strategy_id l;
     view_ts := ts;
     view_account_balance := account_balance l;
     view_positions := positions l;
     view_constraints := constraints l |}.

(** The ledger with the slot of [sym] set or cleared, a new balance and the
    close events of the step appended. *)
Definition with_position (l : Ledger) (sym : string) (p : option PositionSnapshot)
           (balance : Q) (closed : list TradeHistoryEntry) : Ledger :=
  {| strategy_id := strategy_id l;
     account_balance := balance;
     positions := match p with
                  | Some pos => <[sym := pos]> (positions l)
                  | None => delete sym (positions l)
                  end;
     constraints := constraints l;
     closes := closes l ++ closed |}.

(** Modelled from the spec: a fill that opens a position on [sym]. *)
Definition open_position (l : Ledger) (tx : TxResult) (delta price : Q) : Ledger :=
  with_position l (tx_instrument tx)
    (Some {| pos_quantity := delta; avg_price := price;
             pos_leverage := tx_leverage tx |})
    (account_balance l - fee_of tx) [].

(** Modelled from the spec: a same-side fill adds to the position and moves
    the average entry price to the quantity-weighted average. *)
Definition add_to_position (l : Ledger) (tx : TxResult) (pos : PositionSnapshot)
           (delta price : Q) : Ledger :=
  let held := Qabs (pos_quantity pos) in
  let added := Qabs delta in
  with_position l (tx_instrument tx)
    (Some {| pos_quantity := pos_quantity pos + delta;
             avg_price := (held * avg_price pos + added * price) / (held + added);
             pos_leverage := pos_leverage pos |})
    (account_balance l - fee_of tx) [].

(** Modelled from the spec: an opposite-side fill closes [min(held, filled)]
    units, realizes their PnL against the average entry price and emits the
    close event; what is left of the fill after a full close opens the
    opposite position at the execution price. *)
Definition reduce_position (l : Ledger) (tx : TxResult) (pos : PositionSnapshot)
           (delta price : Q) : Ledger :=
  let held := Qabs (pos_quantity pos) in
  let filled := Qabs delta in
  let closed := if Qle_bool held filled then held else filled in
  let long := Qltb 0 (pos_quantity pos) in
  let realized :=
    if long then closed * (price - avg_price pos)
    else closed * (avg_price pos - price) in
  let event :=
    {| h_instruction_id := tx_instruction_id tx;
       h_instrument := tx_instrument tx;
       h_side := tx_side tx;
       h_type := if long then LONG else SHORT;
       h_quantity := closed;
       h_entry_price := avg_price pos;
       h_exit_price := price;
       h_realized_pnl := realized |} in
  let rest := pos_quantity pos + delta in
  let after :=
    if Qeq_bool held filled then None
    else if Qltb filled held then
      Some {| pos_quantity := rest; avg_price := avg_price pos;
              pos_leverage := pos_leverage pos |}
    else
      Some {| pos_quantity := rest; avg_price := price;
              pos_leverage := tx_leverage tx |} in
  with_position l (tx_instrument tx) after
    (account_balance l + realized - fee_of tx) [event].

(** Modelled from the spec: applying one [TxResult] (section 4.4 of the
    specification; the portfolio module is not among the sources).
    REJECTED and ERROR results, and results that filled nothing or carry no
    execution price, leave the ledger as it is. *)
Definition apply_trade (l : Ledger) (tx : TxResult) : Ledger :=
  match tx_status tx with
  | REJECTED | ERROR => l
  | FILLED | PARTIAL =>
      match avg_exec_price tx with
      | None => l
      | Some price =>
          if Qle_bool (filled_qty tx) 0 then l
          else
            let delta := match tx_side tx with
                         | BUY => filled_qty tx
                         | SELL => - filled_qty tx
                         end in
            match positions l !! tx_instrument tx with
            | None => open_position l tx delta price
            | Some pos =>
                if Qeq_bool (pos_quantity pos) 0 then open_position l tx delta price
                else if Bool.eqb (Qltb 0 (pos_quantity pos)) (Qltb 0 delta)
                then add_to_position l tx pos delta price
                else reduce_position l tx pos delta price
            end
      end
  end.

(** Modelled from the spec: [apply_trades(trades, market_features)]; the
    market features only refresh mark prices, which the ledger does not
    store. *)
Definition apply_trades (l : Ledger) (trades : list TxResult) : Ledger :=
  fold_left apply_trade trades l.

(** The result is REJECTED or ERROR. *)
Definition failed (tx : TxResult) : bool :=
  match tx_status tx with
  | REJECTED | ERROR => true
  | FILLED | PARTIAL => false
  end.



(** A result of the execution gateway for [qty] units at [price]. *)
Definition result (id sym : string) (s : TradeSide) (st : TxStatus)
           (qty price : Q) : TxResult :=
  {| tx_instruction_id := id; tx_instrument := sym; tx_side := s;
     tx_status := st; requested_qty := qty; filled_qty := qty;
     avg_exec_price := Some price; tx_fee_cost := None; tx_leverage := None |}.

(** A fresh strategy with 10000 of capital, at most 5x and 3 positions. *)
Definition fresh_ledger : Ledger :=
  {| strategy_id := "s-1"; account_balance := 10000;
     positions := ∅;
     constraints := {| max_leverage := 5; max_positions := 3 |};
     closes := [] |}.

(** The fresh strategy after buying one BTC-USDT at 50000. *)
Definition long_ledger : Ledger :=
  apply_trade fresh_ledger (result "i-1" "BTC-USDT" BUY FILLED 1 50000).

Definition signed (s : TradeSide) (qty : Q) : Q :=
  match s with BUY => qty | SELL => - qty end.

Definition fill_price (tx : TxResult) : Q :=
  match avg_exec_price tx with Some p => p | None => 0 end.

(** The units a batch filled and what they cost. *)
Definition filled_total (fills : list TxResult) : Q :=
  fold_right (fun tx acc => filled_qty tx + acc) 0 fills.

Definition filled_cost (fills : list TxResult) : Q :=
  fold_right (fun tx acc => filled_qty tx * fill_price tx + acc) 0 fills.

(** A successful fill of [sym] on side [s]. *)
Definition same_side_fill (sym : string) (s : TradeSide) (tx : TxResult) : Prop :=
  tx_instrument tx = sym /\ tx_side tx = s /\ failed tx = false
  /\ 0 < filled_qty tx /\ exists p, avg_exec_price tx = Some p.



End Trading.

(** ** StrategyAgentArea, the agent view of the strategy pages *)

Module StrategyAgentArea.
Import StrategyTypes.

(** The list the server last returned and the strategy picked on the left. *)
Record Area := {
  strategies : list Strategy;
  selectedStrategy : option Strategy
}.

(** The effect on [strategies] and [selectedStrategy]: with strategies and
    nothing selected, the first one is selected. *)
Definition select_first (a : Area) : Area :=
  if (List.length (strategies a) =? 0)%nat
     || match selectedStrategy a with Some _ => true | None => false end
  then a
  else {| strategies := strategies a; selectedStrategy := head (strategies a) |}.

(** [onStrategyDelete], once [deleteStrategy] has resolved: the selection
    moves to [strategies[0]] of the list the handler closed over when the
    deleted strategy was the selected one. *)
Definition onStrategyDelete (a : Area) (strategyId : string) : Area :=
  match selectedStrategy a with
  | Some sel =>
      if String.eqb strategyId (strategy_id sel)
      then {| strategies := strategies a; selectedStrategy := head (strategies a) |}
      else a
  | None => a
  end.

(** The list after a refetch. *)
Definition refetched (fresh : list Strategy) (a : Area) : Area :=
  {| strategies := fresh; selectedStrategy := selectedStrategy a |}.

(** The right half shows the history and the portfolio of the selected
    strategy, or the "No running strategies" placeholder. *)
Definition right_pane (a : Area) : option (string * TradingMode) :=
  match selectedStrategy a with
  | Some sel => Some (strategy_id sel, trading_mode sel)
  | None => None
  end.

(** A running live strategy, alone in the list and selected. *)
Definition sample_strategy : Strategy :=
  {| strategy_id := "s-1"; strategy_name := "Momentum";
     strategy_type := PromptBasedStrategy; status := Running;
     trading_mode := Live; unrealized_pnl := 12.5%float;
     unrealized_pnl_pct := 1.25%float; created_at := "2024-01-01T00:00:00Z";
     exchange_id := "weex"; model_id := "deepseek-chat" |}.

Definition sample_area : Area :=
  {| strategies := [sample_strategy]; selectedStrategy := Some sample_strategy |}.

End StrategyAgentArea.

(** ** constants/api.ts and the strategy queries of api/strategy.ts *)

Module Queries.

Definition queryKeyFn (defaultKey queryKey : list string) : list string :=
  defaultKey ++ queryKey.

Definition strategyList : list string := ["strategy"; "list"].
Definition strategyApiKey : list string := ["strategy"; "api-key"].
Definition strategyTrades := queryKeyFn ["strategy"; "trades"].
Definition strategyHoldings := queryKeyFn ["strategy"; "holdings"].
Definition strategyPriceCurve := queryKeyFn ["strategy"; "price-curve"].
Definition strategyPrompts : list string := ["strategy"; "prompts"].
Definition strategyPortfolioSummary := queryKeyFn ["strategy"; "portfolio-summary"].

Record Query := {
  queryKey : list string;
  url : string;
  enabled : bool
}.

(** [strategyId ?? ""]. *)
Definition or_empty (strategyId : option string) : string :=
  match strategyId with Some id => id | None => "" end.

(** The id inside a template string. *)
Definition interpolated (strategyId : option string) : string :=
  match strategyId with Some id => id | None => "undefined" end.

(** [!!strategyId]. *)
Definition truthy_id (strategyId : option string) : bool :=
  match strategyId with Some id => Js.nonempty id | None => false end.

Inductive Hook :=
| useGetStrategyDetails
| useGetStrategyHoldings
| useGetStrategyPriceCurve
| useGetStrategyPortfolioSummary
| useGetStrategyAssets
| useGetStrategyAccountInfo.

Definition all_hooks : list Hook :=
  [useGetStrategyDetails; useGetStrategyHoldings; useGetStrategyPriceCurve;
   useGetStrategyPortfolioSummary; useGetStrategyAssets;
   useGetStrategyAccountInfo].

Definition key_of (h : Hook) (strategyId : option string) : list string :=
  match h with
  | useGetStrategyDetails => strategyTrades [or_empty strategyId]
  | useGetStrategyHoldings => strategyHoldings [or_empty strategyId]
  | useGetStrategyPriceCurve => strategyPriceCurve [or_empty strategyId]
  | useGetStrategyPortfolioSummary => strategyPortfolioSummary [or_empty strategyId]
  | useGetStrategyAssets => ["strategy"; "assets"; or_empty strategyId]
  | useGetStrategyAccountInfo => ["strategy"; "account_info"; or_empty strategyId]
  end.

Definition path_of (h : Hook) : string :=
  match h with
  | useGetStrategyDetails => "/strategies/detail?id="
  | useGetStrategyHoldings => "/strategies/holding?id="
  | useGetStrategyPriceCurve => "/strategies/holding_price_curve?id="
  | useGetStrategyPortfolioSummary => "/strategies/portfolio_summary?id="
  | useGetStrategyAssets => "/strategies/assets?id="
  | useGetStrategyAccountInfo => "/strategies/account_info?id="
  end.

(** The query a hook declares for a strategy id. *)
Definition query (h : Hook) (strategyId : option string) : Query :=
  {| queryKey := key_of h strategyId;
     url := (path_of h ++ interpolated strategyId)%string;
     enabled := truthy_id strategyId |}.

End Queries.

(** ** components/valuecell/form/number-field.tsx *)

Module NumberField.

Section Field.
(** [+inputValue]: the number a non-empty input text converts to. *)
Variable to_number : string -> float.

(** [onChange]: the value handed to [field.handleChange]. *)
Definition onChange (inputValue : string) : float :=
  if String.eqb inputValue "" then 0%float else to_number inputValue.
End Field.

End NumberField.

(** ** components/valuecell/multi-select.tsx *)

Module MultiSelect.

Record MultiSelectOption := {
  value : string;
  label : string;
  disabled : bool
}.

(** [normalizedOptions]: a plain string stands for itself. *)
Definition normalize (opt : string + MultiSelectOption) : MultiSelectOption :=
  match opt with
  | inl s => {| value := s; label := s; disabled := false |}
  | inr o => o
  end.

Definition normalizedOptions (options : list (string + MultiSelectOption))
  : list MultiSelectOption :=
  map normalize options.

(** [values.includes(v)]. *)
Definition includes (values : list string) (v : string) : bool :=
  existsb (String.eqb v) values.

(** [values.filter((v) => v !== optionValue)]. *)
Definition without (optionValue : string) (values : list string) : list string :=
  List.filter (fun v => negb (String.eqb v optionValue)) values.

(** [maxSelected && selectedValues.length >= maxSelected]: [maxSelected] is
    an optional count, and 0 counts as no limit. *)
Definition limit_reached (maxSelected : option Z) (selectedValues : list string) : bool :=
  match maxSelected with
  | Some n => negb (n =? 0)%Z && (n <=? Z.of_nat (List.length selectedValues))%Z
  | None => false
  end.

(** [handleSelect]: the new value handed to [onValueChange], or [None] when
    the handler returns early. *)
Definition handleSelect (maxSelected : option Z) (selectedValues : list string)
           (optionValue : string) : option (list string) :=
  let isSelected := includes selectedValues optionValue in
  if isSelected then Some (without optionValue selectedValues)
  else if limit_reached maxSelected selectedValues then None
  else Some (selectedValues ++ [optionValue]).

Definition handleRemove (selectedValues : list string) (optionValue : string)
  : list string :=
  without optionValue selectedValues.

Definition handleClear : list string := [].

(** The selection after a handler ran: unchanged after an early return. *)
Definition after_select (maxSelected : option Z) (selectedValues : list string)
           (optionValue : string) : list string :=
  match handleSelect maxSelected selectedValues optionValue with
  | Some newValue => newValue
  | None => selectedValues
  end.

(** [selectedOptions]: the options plus one option per selected value that
    is no option, kept when selected. *)
Definition with_custom (opts : list MultiSelectOption) (val : string)
  : list MultiSelectOption :=
  if existsb (fun o => String.eqb (value o) val) opts then opts
  else opts ++ [{| value := val; label := val; disabled := false |}].

Definition selectedOptions (normalized : list MultiSelectOption)
           (selectedValues : list string) : list MultiSelectOption :=
  let opts := fold_left with_custom selectedValues normalized in
  List.filter (fun opt => includes selectedValues (value opt)) opts.

Definition displayedOptions (maxDisplayed : nat) (selected : list MultiSelectOption)
  : list MultiSelectOption :=
  take maxDisplayed selected.

(** [Math.max(0, selectedOptions.length - maxDisplayed)]. *)
Definition remainingCount (maxDisplayed : nat) (selected : list MultiSelectOption) : nat :=
  List.length selected - maxDisplayed.

(** An entry of the list: [isDisabled] and what [onSelect] does. *)
Definition isDisabled (maxSelected : option Z) (selectedValues : list string)
           (option_ : MultiSelectOption) : bool :=
  let isSelected := includes selectedValues (value option_) in
  disabled option_ || (limit_reached maxSelected selectedValues && negb isSelected).

Definition onSelect (maxSelected : option Z) (selectedValues : list string)
           (option_ : MultiSelectOption) : list string :=
  if negb (isDisabled maxSelected selectedValues option_)
  then after_select maxSelected selectedValues (value option_)
  else selectedValues.

(** The "Create ..." entry is offered. *)
Definition offers_create (creatable : bool) (normalized : list MultiSelectOption)
           (selectedValues : list string) (inputValue : string) : bool :=
  creatable && (0 <? String.length inputValue)%nat
  && negb (existsb (fun o => String.eqb (value o) inputValue) normalized)
  && negb (includes selectedValues inputValue).

End MultiSelect.

(** * Properties *)

(** ** Strategy card and trading-history header *)

Section CardFacts.
Import StrategyTypes TradeStrategyGroup StrategyComposeList.

Variable intl_format : nat -> float -> string.
Variable colorMode : Stock.StockColorMode.

Lemma status_str_cases (s : StrategyStatus) :
  status_str s = "running" \/ status_str s = "stopped".
Proof. destruct s; [left | right]; reflexivity. Qed.

Lemma status_str_exclusive (s : StrategyStatus) :
  ~ (status_str s = "running" /\ status_str s = "stopped").
Proof. destruct s; intros [H1 H2]; discriminate. Qed.

Lemma card_dialogs (strategy : Strategy) :
  dialogs (TradeStrategyCard intl_format colorMode strategy) =
  match status strategy with
  | Stopped => [start_dialog; delete_dialog]
  | Running => [stop_dialog; delete_dialog]
  end.
Proof. destruct strategy as [? ? ? [] ? ? ? ? ? ?]; reflexivity. Qed.

(** C4: a strategy's status is exactly one of "running" and "stopped"; the
    card offers the Start confirmation exactly when the status is "stopped"
    and the Stop confirmation exactly when it is "running". *)
Theorem C4_status_and_confirmations (strategy : Strategy) :
  let card := TradeStrategyCard intl_format colorMode strategy in
  let st := status_str (status strategy) in
  (st = "running" \/ st = "stopped")
  /\ ~ (st = "running" /\ st = "stopped")
  /\ (offers onStart card = true <-> st = "stopped")
  /\ (offers onStop card = true <-> st = "running")
  /\ (In start_dialog (dialogs card) <-> st = "stopped")
  /\ (In stop_dialog (dialogs card) <-> st = "running").
Proof.
  cbv zeta. unfold offers. rewrite card_dialogs.
  split; [apply status_str_cases |].
  split; [apply status_str_exclusive |].
  destruct (status strategy); cbn;
    repeat split; intros; try reflexivity; try discriminate;
    repeat match goal with
           | H : _ \/ _ |- _ => destruct H
           | H : False |- _ => destruct H
           end;
    try discriminate; auto.
Qed.

(** C7: the trading mode is "live" or "virtual"; the history header shows
    "Live Trading" exactly for "live" and "Virtual Trading" otherwise; the
    card badge shows "Live" exactly for "live" and "Virtual" otherwise. *)
Theorem C7_trading_mode_labels (strategy : Strategy) :
  let mode := trading_mode strategy in
  let card := TradeStrategyCard intl_format colorMode strategy in
  (trading_mode_str mode = "live" \/ trading_mode_str mode = "virtual")
  /\ (header_badge mode = "Live Trading" <-> trading_mode_str mode = "live")
  /\ (trading_mode_str mode <> "live" -> header_badge mode = "Virtual Trading")
  /\ (mode_badge card = "Live" <-> trading_mode_str mode = "live")
  /\ (trading_mode_str mode <> "live" -> mode_badge card = "Virtual").
Proof.
  cbv zeta. destruct strategy as [? ? ? ? mode ? ? ? ? ?]; cbn.
  destruct mode; cbn; repeat split; intros; auto; try discriminate; congruence.
Qed.

End CardFacts.

(** ** Create-strategy modal *)

Section ModalFacts.
Import Js Zod StrategyTypes Api CreateStrategyModal.

Lemma nonempty_true (s : string) : nonempty s = true <-> s <> "".
Proof.
  destruct s; cbn; split; intros H; try discriminate; try reflexivity.
  exfalso; apply H; reflexivity.
Qed.

(** What the union of the four object schemas computes on form values. *)
Lemma step2Schema_unfold (v : Step2Values) :
  accepts step2Schema (form2_values v) =
  let live := String.eqb (trading_mode_str (f2_trading_mode v)) "live" in
  let ex := f2_exchange_id v in
  String.eqb (trading_mode_str (f2_trading_mode v)) "virtual"
  || (live && String.eqb ex "hyperliquid"
      && nonempty (f2_wallet_address v) && nonempty (f2_private_key v))
  || (live && existsb (String.eqb ex) ["okx"; "coinbaseexchange"; "weex"]
      && nonempty (f2_api_key v) && nonempty (f2_secret_key v)
      && nonempty (f2_passphrase v))
  || (live && existsb (String.eqb ex) ["binance"; "blockchaincom"; "gate"; "mexc"]
      && nonempty (f2_api_key v) && nonempty (f2_secret_key v)).
Proof.
  destruct v as [mode ex ak sk pp wa pk]. cbn.
  destruct mode; cbn; rewrite ?andb_true_r, ?orb_false_r; unfold nonempty;
    try reflexivity.
  all: rewrite ?andb_assoc, ?orb_assoc; reflexivity.
Qed.

Lemma eqb_in (s : string) (l : list string) :
  existsb (String.eqb s) l = true <-> In s l.
Proof.
  rewrite existsb_exists. split.
  - intros [x [Hin Heq]]. apply String.eqb_eq in Heq. subst. exact Hin.
  - intros Hin. exists s. split; [exact Hin | apply String.eqb_refl].
Qed.

(** C9: the step-2 values pass validation exactly when the mode is
    "virtual", or the mode is "live" and the exchange is hyperliquid with a
    wallet address and a private key, or one of okx, coinbaseexchange, weex
    with API key, secret key and passphrase, or one of binance,
    blockchaincom, gate, mexc with API key and secret key. *)
Theorem C9_step2_validation (v : Step2Values) :
  let mode := trading_mode_str (f2_trading_mode v) in
  let ex := f2_exchange_id v in
  accepts step2Schema (form2_values v) = true <->
  mode = "virtual"
  \/ (mode = "live" /\ ex = "hyperliquid"
      /\ f2_wallet_address v <> "" /\ f2_private_key v <> "")
  \/ (mode = "live" /\ (ex = "okx" \/ ex = "coinbaseexchange" \/ ex = "weex")
      /\ f2_api_key v <> "" /\ f2_secret_key v <> "" /\ f2_passphrase v <> "")
  \/ (mode = "live"
      /\ (ex = "binance" \/ ex = "blockchaincom" \/ ex = "gate" \/ ex = "mexc")
      /\ f2_api_key v <> "" /\ f2_secret_key v <> "").
Proof.
  cbv zeta. rewrite step2Schema_unfold. cbv zeta.
  rewrite !orb_true_iff, !andb_true_iff, !eqb_in, !String.eqb_eq, !nonempty_true.
  cbn [In]. intuition (auto; congruence).
Qed.
End ModalFacts.

Section RequestFacts.
Import Js Zod StrategyTypes Api CreateStrategyModal.

Variable TRADING_SYMBOLS : list string.
Variable prompt_ids : list string.

Lemma handleNext_request (m m' : Modal) (r : Request) :
  handleNext TRADING_SYMBOLS prompt_ids m = (m', Some r) ->
  currentStep m = Step3
  /\ accepts step3Schema (form3_values (form3 m)) = true
  /\ r = form3_onSubmit (form1 m) (form2 m) (form3 m).
Proof.
  unfold handleNext. intros H.
  destruct (currentStep m);
    match type of H with
    | (if ?c then _ else _) = _ => destruct c eqn:Hc
    end; inversion H; subst; auto.
Qed.

Lemma trading_config_keys (v1 : Step1Values) (v2 : Step2Values) (v3 : Step3Values) :
  keys_of (trading_config (form3_onSubmit v1 v2 v3)) =
  ["strategy_type"; "strategy_name"; "initial_capital"; "max_leverage";
   "symbols"; "template_id"].
Proof. reflexivity. Qed.

(** C1, as the modal builds the request: every request the modal submits is
    a POST to /strategies/create, sent on step 3 and only when the step-3
    values pass [step3Schema]; its [trading_config] has exactly the keys
    strategy_type, strategy_name, initial_capital, max_leverage, symbols and
    template_id, each holding the value of the step-3 form; so it carries
    strategy_name, initial_capital, max_leverage and symbols, and it carries
    none of max_positions, decide_interval and custom_prompt. *)
Theorem C1_trading_config_fields (m m' : Modal) (r : Request) :
  handleNext TRADING_SYMBOLS prompt_ids m = (m', Some r) ->
  req_method r = "POST" /\ req_path r = "/strategies/create"
  /\ keys_of (trading_config r) =
     ["strategy_type"; "strategy_name"; "initial_capital"; "max_leverage";
      "symbols"; "template_id"]
  /\ carries r ["strategy_name"; "initial_capital"; "max_leverage"; "symbols"] = true
  /\ carries r ["max_positions"] = false
  /\ carries r ["decide_interval"] = false
  /\ carries r ["custom_prompt"] = false
  /\ field "strategy_name" (trading_config r) = JStr (f3_strategy_name (form3 m))
  /\ field "initial_capital" (trading_config r) = JNum (f3_initial_capital (form3 m))
  /\ field "max_leverage" (trading_config r) = JNum (f3_max_leverage (form3 m))
  /\ field "symbols" (trading_config r) = JArr (map JStr (f3_symbols (form3 m)))
  /\ field "strategy_type" (trading_config r) = JStr (f3_strategy_type (form3 m))
  /\ field "template_id" (trading_config r) = JStr (f3_template_id (form3 m))
  /\ currentStep m = Step3
  /\ accepts step3Schema (form3_values (form3 m)) = true
  /\ accepts step3Schema (trading_config r) = true.
Proof.
  intros H. apply handleNext_request in H. destruct H as (Hstep & Hvalid & ->).
  repeat split; try reflexivity; assumption.
Qed.
End RequestFacts.

Lemma C1_trading_config_fields_witness :
  exists r,
    snd (CreateStrategyModal.handleNext [] [] CreateStrategyModal.filled_modal) = Some r
    /\ Js.keys_of (CreateStrategyModal.trading_config r) =
       ["strategy_type"; "strategy_name"; "initial_capital"; "max_leverage";
        "symbols"; "template_id"].
Proof.
  eexists. split; [reflexivity |].
  eapply (C1_trading_config_fields [] [] CreateStrategyModal.filled_modal).
  reflexivity.
Defined.

(** The request of the filled-in modal carries no max_positions,
    decide_interval or custom_prompt. *)
Lemma C1_counterexample :
  exists r,
    snd (CreateStrategyModal.handleNext [] [] CreateStrategyModal.filled_modal) = Some r
    /\ CreateStrategyModal.carries r
         ["strategy_name"; "initial_capital"; "max_leverage"; "max_positions";
          "symbols"; "decide_interval"; "custom_prompt"] = false.
Proof. eexists. split; reflexivity. Qed.

(** ** Trading-history list *)

Lemma digits_nonempty (n : N) : Utils.digits n <> "".
Proof.
  unfold Utils.digits, NilZero.string_of_uint.
  destruct (N.to_uint n); cbn; discriminate.
Qed.

Lemma en_US_format_nonempty (d : nat) (x : float) : Utils.en_US_format d x <> "".
Proof.
  unfold Utils.en_US_format.
  destruct (Prim2SF x) as [sg | sg | | sg m e]; try (destruct sg; discriminate);
    try discriminate.
  cbv zeta.
  pose proof (digits_nonempty (Utils.scaled m e d / 10 ^ N.of_nat d)) as Hd.
  destruct (Utils.digits (Utils.scaled m e d / 10 ^ N.of_nat d)); [congruence |].
  destruct sg; discriminate.
Qed.

Section HistoryFacts.
Import Js StrategyTypes Stock Utils StrategyComposeList.

Variable intl_format : nat -> float -> string.
Variable colorMode : StockColorMode.

(** The platform's formatter never prints a number as the empty string. *)
Hypothesis intl_format_nonempty : forall d x, intl_format d x <> "".

Lemma includes_close (k : ActionKind) :
  includes (action_str k) "close" =
  match k with
  | close_long | close_short => true
  | open_long | open_short => false
  end.
Proof. destruct k; reflexivity. Qed.

Lemma append_empty_r (s : string) : (s ++ "")%string = s.
Proof.
  induction s as [| c s IH]; [reflexivity |].
  change (String c (s +:+ "") = String c s). rewrite IH. reflexivity.
Qed.

Lemma formatChange_not_dash (x : float) (decimals : nat) :
  formatChange intl_format (Some x) "" decimals <> "-".
Proof.
  unfold formatChange, numberFixed. cbv zeta.
  destruct (String.eqb_spec (intl_format decimals (PrimFloat.abs x)) "0") as [E | E].
  - rewrite E. cbn. discriminate.
  - rewrite append_empty_r. intros H.
    apply (intl_format_nonempty decimals (PrimFloat.abs x)).
    destruct (gt x 0); cbn in H; inversion H; reflexivity.
Qed.

Lemma displayed_pnl_spans (a : StrategyAction) (s : Span) :
  In s (displayed_pnl intl_format colorMode a) ->
  s = pnl_span intl_format colorMode a.
Proof.
  unfold displayed_pnl, row_pnl, hover_pnl.
  destruct (negb _); cbn; intuition.
Qed.

(** C5: every realized-PnL span of an action shows the signed, formatted
    [realized_pnl] when the action name contains "close", and "-" in the
    neutral colour when it does not; the text is the formatted value if
    and only if the action is a close. *)
Theorem C5_realized_pnl_display (a : StrategyAction) (s : Span) :
  In s (displayed_pnl intl_format colorMode a) ->
  let closes := includes (action_str (action a)) "close" in
  let signed := formatChange intl_format (Some (realized_pnl a)) "" 4 in
  (closes = true ->
     span_text s = signed
     /\ span_color s =
        useStockColors colorMode (getChangeType (Some (realized_pnl a))))
  /\ (closes = false -> span_text s = "-" /\ span_color s = NEUTRAL_COLOR)
  /\ (span_text s = signed <-> closes = true).
Proof.
  intros Hin. apply displayed_pnl_spans in Hin. subst s. cbv zeta.
  unfold pnl_span, pnl_memo. cbn [span_text span_color].
  destruct (includes (action_str (action a)) "close") eqn:Hc; cbn.
  - repeat split; auto; discriminate.
  - split; [discriminate |]. split.
    + intros _. split; [reflexivity | destruct colorMode; reflexivity].
    + split; [| discriminate].
      intros H. symmetry in H. apply formatChange_not_dash in H. destruct H.
Qed.

(** The hover card always shows the span; the list row shows it when
    [realized_pnl] is not zero. *)
Lemma hover_pnl_displayed (a : StrategyAction) :
  In (hover_pnl intl_format colorMode a) (displayed_pnl intl_format colorMode a).
Proof.
  unfold displayed_pnl. destruct (row_pnl _ _ _); cbn; auto.
Qed.
End HistoryFacts.

Lemma C5_realized_pnl_display_witness :
  let a := StrategyComposeList.closed_action in
  let s := StrategyComposeList.hover_pnl Utils.en_US_format Stock.GREEN_UP_RED_DOWN a in
  StrategyComposeList.span_text s = "+1000"
  /\ StrategyComposeList.span_color s = Stock.GREEN_COLOR.
Proof.
  cbv zeta.
  pose proof (C5_realized_pnl_display Utils.en_US_format Stock.GREEN_UP_RED_DOWN) as H.
  pose proof en_US_format_nonempty as Hne.
  specialize (H Hne StrategyComposeList.closed_action
                (StrategyComposeList.hover_pnl Utils.en_US_format
                   Stock.GREEN_UP_RED_DOWN StrategyComposeList.closed_action)).
  specialize (H (hover_pnl_displayed _ _ _)).
  cbv zeta in H. destruct H as [H _]. specialize (H eq_refl).
  exact H.
Defined.

(** ** Portfolio panel: the displayed totals *)

Section TotalsFacts.
Import Js StrategyTypes PortfolioPositionsGroup.

Lemma loop_body_counted (weex : bool) (l : list ExchangeAsset) (t : Totals) :
  fold_left (loop_body weex) l t =
  fold_left accumulate (counted_assets weex l) t.
Proof.
  unfold counted_assets. destruct weex; [| reflexivity].
  revert t. induction l as [| a l IH]; intros t; [reflexivity |].
  cbn [fold_left List.filter]. unfold loop_body at 2.
  destruct (is_quote_coin (toUpperCase (coin_name a))); cbn [fold_left]; apply IH.
Qed.

Lemma accumulate_columns (l : list ExchangeAsset) (t : Totals) :
  fold_left accumulate l t =
  {| assetsTotalEquity :=
       fold_left (fun acc a => PrimFloat.add acc (or_zero (equity a))) l
                 (assetsTotalEquity t);
     assetsAvailableBalance :=
       fold_left (fun acc a => PrimFloat.add acc (or_zero (available a))) l
                 (assetsAvailableBalance t);
     assetsTotalPnl :=
       fold_left (fun acc a => PrimFloat.add acc (or_zero (asset_unrealized_pnl a))) l
                 (assetsTotalPnl t) |}.
Proof.
  revert t. induction l as [| a l IH]; intros t; [destruct t; reflexivity |].
  cbn [fold_left]. rewrite IH. reflexivity.
Qed.

Lemma totals_sums (p : Props) (a : StrategyAssets) :
  hasAccountInfo p = false -> assets_ p = Some a ->
  totals p =
  if hasAssets p then
    let counted := counted_assets (isWeex p) (assets a) in
    {| assetsTotalEquity := sum_of equity counted;
       assetsAvailableBalance := sum_of available counted;
       assetsTotalPnl := sum_of asset_unrealized_pnl counted |}
  else no_totals.
Proof.
  intros Hacc Ha. unfold totals. rewrite Hacc, Ha. cbn [negb andb].
  destruct (hasAssets p); [| reflexivity].
  rewrite loop_body_counted, accumulate_columns. reflexivity.
Qed.

(** C8, as the panel computes it: Total Equity is the account's total
    equity when account info is present with a positive total equity or a
    positive total available; else, when assets are present and the equity
    sum or the available-balance sum over the counted assets is positive,
    the equity sum (over the USDT, USD and USDC rows when the exchange id
    is weex in any letter case, over all rows otherwise); else the
    summary's total value, 0 without a summary. *)
Theorem C8_displayed_total_equity (p : Props) :
  displayTotalEquity p =
  match accountInfo p with
  | Some ai =>
      if gt (total_equity ai) 0%float || gt (total_available ai) 0%float
      then total_equity ai
      else
        match assets_ p with
        | Some a =>
            let counted := counted_assets (isWeex p) (assets a) in
            if (0 <? List.length (assets a))%nat
               && (gt (sum_of equity counted) 0%float
                   || gt (sum_of available counted) 0%float)
            then sum_of equity counted
            else match summary p with Some s => total_value s | None => 0%float end
        | None => match summary p with Some s => total_value s | None => 0%float end
        end
  | None =>
      match assets_ p with
      | Some a =>
          let counted := counted_assets (isWeex p) (assets a) in
          if (0 <? List.length (assets a))%nat
             && (gt (sum_of equity counted) 0%float
                 || gt (sum_of available counted) 0%float)
          then sum_of equity counted
          else match summary p with Some s => total_value s | None => 0%float end
      | None => match summary p with Some s => total_value s | None => 0%float end
      end
  end.
Proof.
  unfold displayTotalEquity, useAccountInfo, useAssetsData.
  destruct (hasAccountInfo p) eqn:Hacc.
  - unfold hasAccountInfo in Hacc.
    destruct (accountInfo p) as [ai |]; [| discriminate].
    rewrite Hacc. reflexivity.
  - cbn [negb andb].
    assert (Hrest :
      (if hasAssets p
            && (gt (assetsTotalEquity (totals p)) 0 ||
                gt (assetsAvailableBalance (totals p)) 0)
       then assetsTotalEquity (totals p)
       else match summary p with Some s => total_value s | None => 0%float end) =
      match assets_ p with
      | Some a =>
          let counted := counted_assets (isWeex p) (assets a) in
          if (0 <? List.length (assets a))%nat
             && (gt (sum_of equity counted) 0%float
                 || gt (sum_of available counted) 0%float)
          then sum_of equity counted
          else match summary p with Some s => total_value s | None => 0%float end
      | None => match summary p with Some s => total_value s | None => 0%float end
      end).
    { destruct (assets_ p) as [a |] eqn:Ha.
      - rewrite (totals_sums p a Hacc Ha). unfold hasAssets. rewrite Ha.
        destruct (0 <? List.length (assets a))%nat; reflexivity.
      - unfold hasAssets. rewrite Ha. reflexivity. }
    rewrite Hrest. unfold hasAccountInfo in Hacc.
    destruct (accountInfo p) as [ai |]; [rewrite Hacc |]; reflexivity.
Qed.
End TotalsFacts.

(** With no equity but an available balance on the exchange, the panel shows
    the equity sum 0, not the summary's total value 100. *)
Lemma C8_counterexample :
  PortfolioPositionsGroup.displayTotalEquity PortfolioPositionsGroup.idle_props = 0%float
  /\ PortfolioPositionsGroup.stated_total_equity PortfolioPositionsGroup.idle_props
     = 100%float
  /\ PortfolioPositionsGroup.displayTotalEquity PortfolioPositionsGroup.idle_props
     <> PortfolioPositionsGroup.stated_total_equity PortfolioPositionsGroup.idle_props.
Proof.
  split; [reflexivity |]. split; [reflexivity |].
  intros H.
  pose proof (eq_refl :
    PrimFloat.eqb
      (PortfolioPositionsGroup.displayTotalEquity PortfolioPositionsGroup.idle_props)
      (PortfolioPositionsGroup.stated_total_equity PortfolioPositionsGroup.idle_props)
    = false) as E.
  rewrite H in E. vm_compute in E. discriminate E.
Qed.

(** ** Portfolio ledger *)

Section LedgerFacts.
Import Trading.
Local Open Scope Q_scope.

Lemma apply_trade_failed (l : Ledger) (tx : TxResult) :
  failed tx = true -> apply_trade l tx = l.
Proof.
  unfold failed, apply_trade. destruct (tx_status tx); intros H;
    try discriminate; reflexivity.
Qed.

Lemma apply_trades_all_failed (trades : list TxResult) (l : Ledger) :
  forallb failed trades = true -> apply_trades l trades = l.
Proof.
  unfold apply_trades. revert l.
  induction trades as [| tx trades IH]; intros l H; [reflexivity |].
  cbn in H. apply andb_true_iff in H. destruct H as [Htx Hrest].
  cbn [fold_left]. rewrite (apply_trade_failed l tx Htx). apply IH, Hrest.
Qed.

(** Only the successful subset of a batch reaches the ledger. *)
Lemma apply_trades_successful_subset (trades : list TxResult) (l : Ledger) :
  apply_trades l trades =
  apply_trades l (List.filter (fun tx => negb (failed tx)) trades).
Proof.
  unfold apply_trades. revert l.
  induction trades as [| tx trades IH]; intros l; [reflexivity |].
  cbn [fold_left List.filter].
  destruct (failed tx) eqn:Htx; cbn [negb fold_left].
  - rewrite (apply_trade_failed l tx Htx). apply IH.
  - apply IH.
Qed.

(** The round trip of section 8: 10000 of capital, one BTC-USDT bought at
    50000 and sold at 51000 without fees, leaves no position, one close event
    with a realized PnL of 1000 and a balance of 11000. *)
Lemma paper_round_trip :
  let l := apply_trades fresh_ledger
             [result "i-1" "BTC-USDT" BUY FILLED 1 50000;
              result "i-2" "BTC-USDT" SELL FILLED 1 51000] in
  positions l !! "BTC-USDT" = None
  /\ account_balance l == 11000
  /\ map h_realized_pnl (closes l) = [1000].
Proof. cbv zeta. split; [reflexivity |]. split; vm_compute; reflexivity. Qed.

(** C2: applying a [TxResult] whose status is REJECTED or ERROR leaves the
    positions of the portfolio view (and the whole ledger) unchanged; so
    does a batch of such results. *)
Theorem C2_failed_result_is_noop (l : Ledger) (tx : TxResult) (ts : Z) :
  tx_status tx = REJECTED \/ tx_status tx = ERROR ->
  view_positions (get_view ts (apply_trades l [tx])) = view_positions (get_view ts l)
  /\ apply_trades l [tx] = l
  /\ (forall batch, forallb failed batch = true ->
        view_positions (get_view ts (apply_trades l batch))
        = view_positions (get_view ts l)).
Proof.
  intros Hst.
  assert (Hf : failed tx = true) by (unfold failed; destruct Hst as [-> | ->]; reflexivity).
  assert (Hone : apply_trades l [tx] = l) by (apply (apply_trade_failed l tx Hf)).
  rewrite Hone. repeat split.
  intros batch Hb. rewrite (apply_trades_all_failed batch l Hb). reflexivity.
Qed.

Lemma Qle_bool_false (a b : Q) : b < a -> Qle_bool a b = false.
Proof.
  intros H. destruct (Qle_bool a b) eqn:E; [| reflexivity].
  apply Qle_bool_iff in E. exfalso. apply (Qlt_not_le _ _ H E).
Qed.

Lemma Qltb_true (a b : Q) : a < b -> Qltb a b = true.
Proof. intros H. unfold Qltb. rewrite (Qle_bool_false b a H). reflexivity. Qed.

Lemma Qltb_false (a b : Q) : b <= a -> Qltb a b = false.
Proof.
  intros H. unfold Qltb. apply Qle_bool_iff in H. rewrite H. reflexivity.
Qed.

Lemma Qeq_bool_false (a b : Q) : ~ a == b -> Qeq_bool a b = false.
Proof.
  intros H. destruct (Qeq_bool a b) eqn:E; [| reflexivity].
  apply Qeq_bool_iff in E. contradiction.
Qed.

Lemma signed_nonzero (s : TradeSide) (q : Q) : 0 < q -> ~ signed s q == 0.
Proof. destruct s; cbn; intros H E; lra. Qed.

Lemma signed_sign (s : TradeSide) (q : Q) :
  0 < q -> Qltb 0 (signed s q) = match s with BUY => true | SELL => false end.
Proof.
  destruct s; cbn; intros H; [apply Qltb_true; exact H |].
  apply Qltb_false. lra.
Qed.

Lemma Qabs_signed (s : TradeSide) (q : Q) : 0 < q -> Qabs (signed s q) == q.
Proof.
  destruct s; unfold signed; intros H.
  - apply Qabs_pos. lra.
  - rewrite Qabs_opp. apply Qabs_pos. lra.
Qed.

(** The position a successful fill leaves when it opens on an empty slot. *)
Lemma apply_trade_opens (l : Ledger) (tx : TxResult) (p : Q) :
  failed tx = false -> avg_exec_price tx = Some p -> 0 < filled_qty tx ->
  positions l !! tx_instrument tx = None ->
  positions (apply_trade l tx) !! tx_instrument tx =
  Some {| pos_quantity := signed (tx_side tx) (filled_qty tx); avg_price := p;
          pos_leverage := tx_leverage tx |}.
Proof.
  intros Hf Hp Hq Hnone. unfold apply_trade, failed in *.
  destruct (tx_status tx); try discriminate;
    rewrite Hp, (Qle_bool_false _ _ Hq), Hnone;
    unfold open_position, with_position; cbn [positions];
    rewrite lookup_insert_eq; destruct (tx_side tx); reflexivity.
Qed.

(** A successful same-side fill on a held position. *)
Lemma apply_trade_adds (l : Ledger) (tx : TxResult) (pos : PositionSnapshot)
      (q0 p : Q) :
  failed tx = false -> avg_exec_price tx = Some p -> 0 < filled_qty tx ->
  positions l !! tx_instrument tx = Some pos ->
  pos_quantity pos == signed (tx_side tx) q0 -> 0 < q0 ->
  exists pos',
    positions (apply_trade l tx) !! tx_instrument tx = Some pos'
    /\ pos_quantity pos' == signed (tx_side tx) (q0 + filled_qty tx)
    /\ avg_price pos' * (q0 + filled_qty tx)
       == avg_price pos * q0 + filled_qty tx * p.
Proof.
  intros Hf Hp Hq Hsome Hheld Hq0. unfold failed in *.
  assert (Hnz : Qeq_bool (pos_quantity pos) 0 = false).
  { apply Qeq_bool_false. rewrite Hheld. apply signed_nonzero, Hq0. }
  assert (Hsign : Qltb 0 (pos_quantity pos) = Qltb 0 (signed (tx_side tx) (filled_qty tx))).
  { rewrite (signed_sign _ _ Hq). destruct (tx_side tx); unfold signed in Hheld.
    - apply Qltb_true. lra.
    - apply Qltb_false. lra. }
  assert (Hrun :
    positions (apply_trade l tx) !! tx_instrument tx =
    Some {| pos_quantity := pos_quantity pos + signed (tx_side tx) (filled_qty tx);
            avg_price :=
              (Qabs (pos_quantity pos) * avg_price pos
               + Qabs (signed (tx_side tx) (filled_qty tx)) * p)
              / (Qabs (pos_quantity pos)
                 + Qabs (signed (tx_side tx) (filled_qty tx)));
            pos_leverage := pos_leverage pos |}).
  { unfold apply_trade.
    destruct (tx_status tx); try discriminate;
      rewrite Hp, (Qle_bool_false _ _ Hq), Hsome, Hnz;
      fold (signed (tx_side tx) (filled_qty tx));
      rewrite Hsign, Bool.eqb_reflx;
      unfold add_to_position, with_position; cbn [positions];
      apply lookup_insert_eq. }
  eexists. split; [exact Hrun |]. cbn [pos_quantity avg_price].
  assert (Habs : Qabs (pos_quantity pos) == q0).
  { rewrite Hheld. apply Qabs_signed, Hq0. }
  rewrite Habs, (Qabs_signed _ _ Hq).
  split.
  - rewrite Hheld. destruct (tx_side tx); unfold signed; ring.
  - field. lra.
Qed.

(** Same-side fills on a held position keep the running totals: the
    quantity is the filled total and average times quantity is the filled
    cost. *)
Lemma same_side_fills_running (sym : string) (s : TradeSide) (fills : list TxResult) :
  forall (l : Ledger) (pos : PositionSnapshot) (q0 : Q),
    Forall (same_side_fill sym s) fills ->
    positions l !! sym = Some pos ->
    pos_quantity pos == signed s q0 -> 0 < q0 ->
    exists pos',
      positions (apply_trades l fills) !! sym = Some pos'
      /\ pos_quantity pos' == signed s (q0 + filled_total fills)
      /\ avg_price pos' * (q0 + filled_total fills)
         == avg_price pos * q0 + filled_cost fills
      /\ 0 < q0 + filled_total fills.
Proof.
  induction fills as [| tx fills IH]; intros l pos q0 Hall Hpos Hqty Hq0.
  - assert (Ht : filled_total [] = 0) by reflexivity.
    assert (Hc : filled_cost [] = 0) by reflexivity.
    exists pos. rewrite Ht, Hc. cbn [apply_trades fold_left].
    split; [exact Hpos |].
    split.
    { apply Qeq_trans with (signed s q0);
        [exact Hqty | destruct s; unfold signed; ring]. }
    split; [ring | lra].
  - inversion Hall as [| ? ? Htx Hrest]; subst.
    destruct Htx as (Hsym & Hside & Hf & Hq & p & Hp).
    destruct (apply_trade_adds l tx pos q0 p Hf Hp Hq) as (pos1 & Hpos1 & Hqty1 & Havg1).
    + rewrite Hsym. exact Hpos.
    + rewrite Hside. exact Hqty.
    + exact Hq0.
    + rewrite Hsym, Hside in *.
      destruct (IH (apply_trade l tx) pos1 (q0 + filled_qty tx) Hrest Hpos1 Hqty1)
        as (pos' & Hpos' & Hqty' & Havg' & Htot); [lra |].
      assert (Ht : filled_total (tx :: fills) = filled_qty tx + filled_total fills)
        by reflexivity.
      assert (Hc : filled_cost (tx :: fills) = filled_qty tx * p + filled_cost fills)
        by (cbn [filled_cost fold_right]; unfold fill_price; rewrite Hp; reflexivity).
      exists pos'. rewrite Ht, Hc. cbn [apply_trades fold_left].
      split; [exact Hpos' |].
      split.
      { apply Qeq_trans with (signed s (q0 + filled_qty tx + filled_total fills));
          [exact Hqty' | destruct s; unfold signed; ring]. }
      split; [| lra].
      apply Qeq_trans with
        (avg_price pos' * (q0 + filled_qty tx + filled_total fills)); [ring |].
      apply Qeq_trans with (avg_price pos1 * (q0 + filled_qty tx) + filled_cost fills);
        [exact Havg' |].
      apply Qeq_trans with (avg_price pos * q0 + filled_qty tx * p + filled_cost fills);
        [| ring].
      apply Qplus_comp; [exact Havg1 | reflexivity].
Qed.

(** C3: a position built by same-side fills carries the quantity-weighted
    average of the fill prices and the total of the filled quantities; in
    particular opening 1 unit at 100 and adding 1 unit at 110 on the same
    side gives average entry price 105 and quantity 2. *)
Theorem C3_same_side_fills_average (l : Ledger) (sym : string) (s : TradeSide)
        (first : TxResult) (more : list TxResult) :
  positions l !! sym = None ->
  Forall (same_side_fill sym s) (first :: more) ->
  exists pos,
    view_positions (get_view 0 (apply_trades l (first :: more))) !! sym = Some pos
    /\ pos_quantity pos == signed s (filled_total (first :: more))
    /\ avg_price pos == filled_cost (first :: more) / filled_total (first :: more)
    /\ (forall second,
          more = [second] ->
          filled_qty first == 1 -> fill_price first == 100 ->
          filled_qty second == 1 -> fill_price second == 110 ->
          avg_price pos == 105 /\ Qabs (pos_quantity pos) == 2).
Proof.
  intros Hnone Hall. inversion Hall as [| ? ? Hfirst Hmore]; subst.
  destruct Hfirst as (Hsym & Hside & Hf & Hq & p & Hp).
  pose proof (apply_trade_opens l first p Hf Hp Hq) as Hopen.
  rewrite Hsym, Hside in Hopen. specialize (Hopen Hnone).
  destruct (same_side_fills_running sym s more (apply_trade l first) _
              (filled_qty first) Hmore Hopen) as (pos & Hpos & Hqty & Havg & Htot);
    [reflexivity | exact Hq |].
  cbn [avg_price] in Havg.
  assert (Hq' : pos_quantity pos == signed s (filled_total (first :: more))).
  { rewrite Hqty. reflexivity. }
  assert (Ha' : avg_price pos
                == filled_cost (first :: more) / filled_total (first :: more)).
  { cbn [filled_total filled_cost fold_right]. unfold fill_price at 1. rewrite Hp.
    unfold filled_total, filled_cost in *.
    apply Qeq_trans with
      (avg_price pos * (filled_qty first + fold_right (fun tx acc => filled_qty tx + acc) 0 more)
       / (filled_qty first + fold_right (fun tx acc => filled_qty tx + acc) 0 more)).
    - field. lra.
    - rewrite Havg. field. lra. }
  exists pos. split; [exact Hpos |]. split; [exact Hq' |]. split; [exact Ha' |].
  intros second -> E1 E2 E3 E4. split.
  - rewrite Ha'. cbn [filled_total filled_cost fold_right].
    apply Qeq_trans with ((1 * 100 + (1 * 110 + 0)) / (1 + (1 + 0))); [| reflexivity].
    apply Qdiv_comp;
      repeat first [apply Qplus_comp | apply Qmult_comp | assumption | reflexivity].
  - rewrite Hq', Qabs_signed by (cbn [filled_total fold_right]; lra).
    cbn [filled_total fold_right].
    apply Qeq_trans with (1 + (1 + 0)); [| reflexivity].
    repeat first [apply Qplus_comp | assumption | reflexivity].
Qed.
End LedgerFacts.

Lemma C2_failed_result_is_noop_witness :
  Trading.view_positions
    (Trading.get_view 0
       (Trading.apply_trades Trading.long_ledger
          [Trading.result "i-2" "BTC-USDT" Trading.SELL Trading.REJECTED 1 51000]))
  = Trading.view_positions (Trading.get_view 0 Trading.long_ledger).
Proof.
  destruct (C2_failed_result_is_noop Trading.long_ledger
              (Trading.result "i-2" "BTC-USDT" Trading.SELL Trading.REJECTED 1 51000) 0)
    as (Hview & _ & _).
  - left. reflexivity.
  - exact Hview.
Defined.

Lemma C3_same_side_fills_average_witness :
  exists pos,
    Trading.view_positions
      (Trading.get_view 0
         (Trading.apply_trades Trading.fresh_ledger
            [Trading.result "i-1" "BTC-USDT" Trading.BUY Trading.FILLED 1 100;
             Trading.result "i-2" "BTC-USDT" Trading.BUY Trading.PARTIAL 1 110]))
      !! "BTC-USDT" = Some pos
    /\ (Trading.avg_price pos == 105)%Q
    /\ (Qabs (Trading.pos_quantity pos) == 2)%Q.
Proof.
  destruct (C3_same_side_fills_average Trading.fresh_ledger "BTC-USDT" Trading.BUY
              (Trading.result "i-1" "BTC-USDT" Trading.BUY Trading.FILLED 1 100)
              [Trading.result "i-2" "BTC-USDT" Trading.BUY Trading.PARTIAL 1 110])
    as (pos & Hpos & _ & _ & Hnum).
  - reflexivity.
  - apply List.Forall_cons; [| apply List.Forall_cons; [| apply List.Forall_nil]];
      (split; [reflexivity |]); (split; [reflexivity |]); (split; [reflexivity |]);
      (split; [reflexivity | eexists; reflexivity]).
  - exists pos. split; [exact Hpos |].
    apply (Hnum _ eq_refl); reflexivity.
Defined.

(** ** Guardrails *)

Section GuardrailFacts.
Import Trading.
Local Open Scope Q_scope.




End GuardrailFacts.



(** ** The order on time strings *)

Section StringOrder.

Lemma ascii_compare_refl (c : ascii) : Ascii.compare c c = Eq.
Proof. unfold Ascii.compare. apply N.compare_refl. Qed.

Lemma ascii_compare_lt_trans (a b c : ascii) :
  Ascii.compare a b = Lt -> Ascii.compare b c = Lt -> Ascii.compare a c = Lt.
Proof.
  unfold Ascii.compare. rewrite !N.compare_lt_iff. apply N.lt_trans.
Qed.

Lemma string_compare_refl (s : string) : String.compare s s = Eq.
Proof.
  induction s as [| c s IH]; [reflexivity |].
  cbn. rewrite ascii_compare_refl. exact IH.
Qed.

Lemma string_compare_lt_trans (s t u : string) :
  String.compare s t = Lt -> String.compare t u = Lt -> String.compare s u = Lt.
Proof.
  revert t u. induction s as [| a s IH]; intros [| b t] [| c u]; cbn;
    try discriminate; try reflexivity.
  destruct (Ascii.compare a b) eqn:Hab; try discriminate;
    destruct (Ascii.compare b c) eqn:Hbc; try discriminate; intros H1 H2.
  - apply Ascii.compare_eq_iff in Hab, Hbc. subst.
    rewrite ascii_compare_refl. eapply IH; eassumption.
  - apply Ascii.compare_eq_iff in Hab. subst. rewrite Hbc. reflexivity.
  - apply Ascii.compare_eq_iff in Hbc. subst. rewrite Hab. reflexivity.
  - rewrite (ascii_compare_lt_trans a b c Hab Hbc). reflexivity.
Qed.

Lemma leb_cases (s t : string) :
  String.leb s t = true <-> String.compare s t = Lt \/ s = t.
Proof.
  unfold String.leb. split.
  - destruct (String.compare s t) eqn:E; intros H; try discriminate.
    + right. apply String.compare_eq_iff, E.
    + left. reflexivity.
  - intros [-> | ->]; [reflexivity |]. rewrite string_compare_refl. reflexivity.
Qed.

Lemma ltb_lt (s t : string) : String.ltb s t = true <-> String.compare s t = Lt.
Proof.
  unfold String.ltb. destruct (String.compare s t); split; intros H;
    try discriminate; reflexivity.
Qed.

Lemma leb_trans (s t u : string) :
  String.leb s t = true -> String.leb t u = true -> String.leb s u = true.
Proof.
  rewrite !leb_cases. intros [H1 | ->] [H2 | ->]; auto.
  left. eapply string_compare_lt_trans; eassumption.
Qed.

Lemma ltb_leb (s t : string) : String.ltb s t = true -> String.leb s t = true.
Proof. rewrite ltb_lt, leb_cases. auto. Qed.

(** When [rowTime > timeStr] fails, [rowTime <= timeStr]. *)
Lemma not_ltb_leb (s t : string) : String.ltb s t = false -> String.leb t s = true.
Proof.
  unfold String.ltb, String.leb. rewrite (String.compare_antisym t s).
  destruct (String.compare s t); cbn; intros H; try discriminate; reflexivity.
Qed.

(** Two strings in order whose first [n] characters differ are already
    ordered, strictly, by those characters. *)
Lemma slice_lt_of_leb (n : nat) (s t : string) :
  String.leb s t = true -> Js.slice0 n s <> Js.slice0 n t ->
  String.compare (Js.slice0 n s) (Js.slice0 n t) = Lt.
Proof.
  unfold Js.slice0, String.leb. revert s t.
  induction n as [| n IH]; intros s t Hle Hne.
  - destruct s, t; cbn in Hne; congruence.
  - destruct s as [| a s], t as [| b t]; cbn in *; try congruence.
    destruct (Ascii.compare a b) eqn:Hab; try discriminate; [| reflexivity].
    apply Ascii.compare_eq_iff in Hab. subst b.
    apply IH; [exact Hle | congruence].
Qed.

(** The order of the first [n] characters decides the order of the
    strings. *)
Lemma lt_of_slice_lt (n : nat) (s t : string) :
  String.compare (Js.slice0 n s) (Js.slice0 n t) = Lt -> String.compare s t = Lt.
Proof.
  unfold Js.slice0. revert s t.
  induction n as [| n IH]; intros s t H.
  - destruct s, t; cbn in H; discriminate.
  - destruct s as [| a s], t as [| b t]; cbn in *; try congruence.
    destruct (Ascii.compare a b); try congruence. apply IH, H.
Qed.

(** A string at or before [t] that is not in [t]'s minute is strictly
    before every string of that minute. *)
Lemma before_minute (n : nat) (s t t' : string) :
  String.leb s t = true -> Js.slice0 n s <> Js.slice0 n t ->
  Js.slice0 n t' = Js.slice0 n t -> String.ltb s t' = true.
Proof.
  intros Hle Hne Hsame. apply ltb_lt, (lt_of_slice_lt n).
  rewrite Hsame. apply slice_lt_of_leb; assumption.
Qed.

Lemma after_minute (n : nat) (s t t' : string) :
  String.leb t s = true -> Js.slice0 n s <> Js.slice0 n t ->
  Js.slice0 n t' = Js.slice0 n t -> String.ltb t' s = true.
Proof.
  intros Hle Hne Hsame. apply ltb_lt, (lt_of_slice_lt n).
  rewrite Hsame. apply slice_lt_of_leb; [exact Hle | congruence].
Qed.
End StringOrder.

(** ** Portfolio panel: the enhanced price curve *)

Section CurveFacts.
Import Js StrategyTypes PortfolioPositionsGroup.

Variable number_toString : float -> string.

Local Abbreviation time := (row_time number_toString).
Local Abbreviation ascending := (PortfolioPositionsGroup.ascending number_toString).
Local Abbreviation sorted_by_time := (PortfolioPositionsGroup.sorted_by_time number_toString).
Local Abbreviation in_minute := (PortfolioPositionsGroup.in_minute number_toString).

(** *** The loops *)

Lemma scan_found (p : Row -> bool) (rows : list Row) (k i : nat) :
  scan p rows k = Some i ->
  exists pre r post,
    rows = pre ++ r :: post /\ i = (k + List.length pre)%nat
    /\ forallb (fun r' => negb (p r')) pre = true /\ p r = true.
Proof.
  revert k. induction rows as [| r rows IH]; intros k H; [discriminate |].
  cbn [scan] in H. destruct (p r) eqn:Hp.
  - inversion H; subst. exists [], r, rows. cbn. repeat split; auto; lia.
  - destruct (IH _ H) as (pre & r' & post & -> & -> & Hpre & Hr').
    exists (r :: pre), r', post. cbn. rewrite Hp, Hpre.
    repeat split; auto; lia.
Qed.

Lemma scan_none (p : Row -> bool) (rows : list Row) (k : nat) :
  scan p rows k = None -> forallb (fun r' => negb (p r')) rows = true.
Proof.
  revert k. induction rows as [| r rows IH]; intros k H; [reflexivity |].
  cbn [scan] in H. cbn. destruct (p r); [discriminate |]. exact (IH _ H).
Qed.

Lemma insert_middle (pre post : list Row) (r x : Row) :
  <[List.length pre := x]> (pre ++ r :: post) = pre ++ x :: post.
Proof.
  rewrite <- (Nat.add_0_r (List.length pre)), insert_app_r. reflexivity.
Qed.

Lemma splice_middle (pre post : list Row) (x : Row) :
  splice_in (List.length pre) x (pre ++ post) = pre ++ x :: post.
Proof.
  unfold splice_in. rewrite take_app_length, drop_app_length. reflexivity.
Qed.

Lemma scan_succ (p : Row -> bool) (rows : list Row) (k : nat) :
  scan p rows (S k) = option_map S (scan p rows k).
Proof.
  revert k. induction rows as [| r rows IH]; intros k; [reflexivity |].
  cbn [scan]. destruct (p r); [reflexivity | apply IH].
Qed.

(** [enhance] on a curve with a header, index by index over the data
    rows. *)
Lemma enhance_cons (header : Row) (data : list Row) (timeStr : string) (v : float) :
  enhance number_toString (header :: data) timeStr v =
  let point := [CStr timeStr; CNum v] in
  match scan (in_minute timeStr) data 0 with
  | Some i => header :: <[i := point]> data
  | None =>
      match scan (fun row => String.ltb timeStr (time row)) data 0 with
      | Some j => header :: take j data ++ point :: drop j data
      | None => header :: data ++ [point]
      end
  end.
Proof.
  unfold enhance, first_from. cbn [List.length Nat.eqb]. cbv zeta.
  change (drop 1 (header :: data)) with data.
  rewrite !scan_succ. unfold in_minute.
  destruct (scan _ data 0) as [i |]; cbn [option_map].
  - replace (0 <? Z.of_nat (S i))%Z with true by (symmetry; apply Z.ltb_lt; lia).
    rewrite Nat2Z.id. reflexivity.
  - cbn [Z.ltb Z.compare].
    destruct (scan _ data 0) as [j |]; cbn [option_map]; unfold splice_in.
    + reflexivity.
    + cbn [take drop]. rewrite firstn_all, skipn_all. reflexivity.
Qed.

(** *** Rows in ascending order *)

Lemma ascending_tail (r : Row) (rest : list Row) :
  ascending (r :: rest) = true -> ascending rest = true.
Proof.
  destruct rest as [| r2 rest]; [reflexivity |].
  cbn. intros H. apply andb_true_iff in H. apply H.
Qed.

Lemma ascending_head_le (r : Row) (rest : list Row) :
  ascending (r :: rest) = true ->
  Forall (fun r' => String.leb (time r) (time r') = true) rest.
Proof.
  revert r. induction rest as [| r2 rest IH]; intros r H; [constructor |].
  cbn in H. apply andb_true_iff in H. destruct H as [H12 Hrest].
  constructor; [exact H12 |].
  eapply List.Forall_impl; [| apply (IH r2 Hrest)].
  intros r' H2. cbn beta in H2. eapply leb_trans; eassumption.
Qed.

Lemma ascending_app (pre post : list Row) :
  ascending (pre ++ post) = true -> ascending pre = true /\ ascending post = true.
Proof.
  induction pre as [| a pre IH]; intros H; [split; [reflexivity | exact H] |].
  pose proof (ascending_tail _ _ H) as Ht. destruct (IH Ht) as [Hpre Hpost].
  split; [| exact Hpost].
  destruct pre as [| b pre]; [reflexivity |].
  cbn in H |- *. apply andb_true_iff in H. destruct H as [Hab _].
  rewrite Hab. exact Hpre.
Qed.

Lemma ascending_before (pre post : list Row) (r : Row) :
  ascending (pre ++ r :: post) = true ->
  Forall (fun r' => String.leb (time r') (time r) = true) pre.
Proof.
  induction pre as [| a pre IH]; intros H; [constructor |].
  constructor.
  - pose proof (ascending_head_le _ _ H) as Hall.
    apply List.Forall_app in Hall. destruct Hall as [_ Hall].
    inversion Hall; subst. assumption.
  - apply IH. exact (ascending_tail _ _ H).
Qed.

Lemma ascending_join (pre post : list Row) (x : Row) :
  ascending pre = true -> ascending post = true ->
  Forall (fun r' => String.leb (time r') (time x) = true) pre ->
  Forall (fun r' => String.leb (time x) (time r') = true) post ->
  ascending (pre ++ x :: post) = true.
Proof.
  intros Hpre Hpost Hbefore Hafter.
  induction pre as [| a pre IH].
  - destruct post as [| b post]; [reflexivity |].
    inversion Hafter; subst. cbn in *.
    apply andb_true_iff. split; assumption.
  - inversion Hbefore; subst.
    pose proof (IH (ascending_tail _ _ Hpre) ltac:(assumption)) as Hrest.
    destruct pre as [| b pre].
    + cbn [app] in *. change (String.leb (time a) (time x) && ascending (x :: post) = true).
      apply andb_true_iff. split; assumption.
    + cbn in Hpre. apply andb_true_iff in Hpre. destruct Hpre as [Hab _].
      change (String.leb (time a) (time b) && ascending ((b :: pre) ++ x :: post) = true).
      apply andb_true_iff. split; assumption.
Qed.

Lemma outside_minute (timeStr : string) (rows : list Row) :
  forallb (fun r => negb (in_minute timeStr r)) rows = true ->
  Forall (fun r => slice0 16 (time r) <> slice0 16 timeStr) rows.
Proof.
  intros H. apply List.Forall_forall. intros r Hin.
  rewrite forallb_forall in H. specialize (H r Hin).
  apply negb_true_iff in H. unfold PortfolioPositionsGroup.in_minute in H.
  apply String.eqb_neq in H. exact H.
Qed.

(** Replacing the first row of the current minute by the new point keeps
    the order when no later row lies in that minute. *)
Lemma update_keeps_order (pre post : list Row) (r : Row) (timeStr : string) (v : float) :
  ascending (pre ++ r :: post) = true ->
  in_minute timeStr r = true ->
  forallb (fun r' => negb (in_minute timeStr r')) pre = true ->
  forallb (fun r' => negb (in_minute timeStr r')) post = true ->
  ascending (pre ++ [CStr timeStr; CNum v] :: post) = true.
Proof.
  intros Hasc Hr Hpre Hpost.
  unfold PortfolioPositionsGroup.in_minute in Hr. apply String.eqb_eq in Hr.
  destruct (ascending_app _ _ Hasc) as [Hp Hrp].
  apply ascending_join; [exact Hp | exact (ascending_tail _ _ Hrp) | |].
  - pose proof (ascending_before _ _ _ Hasc) as Hle.
    pose proof (outside_minute _ _ Hpre) as Hout.
    rewrite List.Forall_forall in *. intros r' Hin. cbn [row_time].
    apply ltb_leb, (before_minute 16 _ (time r)).
    + apply Hle, Hin.
    + rewrite Hr. apply Hout, Hin.
    + symmetry. exact Hr.
  - pose proof (ascending_head_le _ _ Hrp) as Hle.
    pose proof (outside_minute _ _ Hpost) as Hout.
    rewrite List.Forall_forall in *. intros r' Hin. cbn [row_time].
    apply ltb_leb, (after_minute 16 _ (time r)).
    + apply Hle, Hin.
    + rewrite Hr. apply Hout, Hin.
    + symmetry. exact Hr.
Qed.

(** Inserting the new point before the first later row keeps the order. *)
Lemma insert_keeps_order (pre post : list Row) (timeStr : string) (v : float) :
  ascending (pre ++ post) = true ->
  forallb (fun r' => negb (String.ltb timeStr (time r'))) pre = true ->
  match post with
  | [] => True
  | r :: _ => String.ltb timeStr (time r) = true
  end ->
  ascending (pre ++ [CStr timeStr; CNum v] :: post) = true.
Proof.
  intros Hasc Hpre Hpost.
  destruct (ascending_app _ _ Hasc) as [Hp Hq].
  apply ascending_join; [exact Hp | exact Hq | |].
  - apply List.Forall_forall. intros r' Hin. cbn [row_time].
    rewrite forallb_forall in Hpre.
    specialize (Hpre r' Hin).
    apply negb_true_iff in Hpre. apply not_ltb_leb, Hpre.
  - destruct post as [| r post]; [constructor |]. cbn [row_time].
    apply ltb_leb in Hpost. constructor; [exact Hpost |].
    eapply List.Forall_impl; [| apply (ascending_head_le _ _ Hq)].
    intros r' H. cbn beta in H. eapply leb_trans; eassumption.
Qed.

(** *** The enhanced curve *)

(** C10, as the panel computes it.  With exchange data in use and a
    positive Total Equity: on an empty price curve the result is the header
    row and one point; on a curve with a header whose data rows ascend in
    time, the result has at most one row more than the input and is the
    input with either one new point inserted (no data row lies in the
    current minute; the result ascends) or the first data row of the
    current minute replaced by the new point (the result ascends when no
    later row lies in that minute). *)
Theorem C10_enhanced_price_curve (p : Props) (timeStr : string) :
  useExchangeData p = true ->
  gt (displayTotalEquity p) 0%float = true ->
  sorted_by_time (priceCurve p) = true ->
  let out := enhancedPriceCurve number_toString p timeStr in
  let point := [CStr timeStr; CNum (displayTotalEquity p)] in
  let outside := forallb (fun r => negb (in_minute timeStr r)) in
  (priceCurve p = [] -> out = [[CStr "Time"; CStr "Portfolio Value"]; point])
  /\ (forall header data, priceCurve p = header :: data ->
        (List.length out <= S (List.length (priceCurve p)))%nat
        /\ ((outside data = true
             /\ exists pre post,
                  data = pre ++ post /\ out = header :: pre ++ point :: post
                  /\ sorted_by_time out = true)
            \/ (exists pre r post,
                  data = pre ++ r :: post
                  /\ in_minute timeStr r = true /\ outside pre = true
                  /\ out = header :: pre ++ point :: post
                  /\ (outside post = true -> sorted_by_time out = true)))).
Proof.
  intros Huse Hpos Hsorted. cbv zeta.
  unfold enhancedPriceCurve. rewrite Huse, Hpos. cbn [andb].
  split; [intros ->; reflexivity |].
  intros header data Hcurve. rewrite Hcurve in *.
  unfold PortfolioPositionsGroup.sorted_by_time in Hsorted. cbn [tail] in Hsorted.
  rewrite enhance_cons. cbv zeta.
  destruct (scan (in_minute timeStr) data 0) as [i |] eqn:Hmin.
  - (* a row of the current minute is replaced *)
    destruct (scan_found _ _ _ _ Hmin) as (pre & r & post & -> & -> & Hpre & Hr).
    cbn [Nat.add]. rewrite insert_middle.
    split.
    + cbn [List.length]. rewrite !length_app. cbn [List.length]. lia.
    + right. exists pre, r, post. repeat split; auto.
      intros Hpost. unfold PortfolioPositionsGroup.sorted_by_time. cbn [tail].
      apply (update_keeps_order pre post r); assumption.
  - (* a new point is inserted *)
    pose proof (scan_none _ _ _ Hmin) as Hout.
    destruct (scan (fun row => String.ltb timeStr (time row)) data 0) as [j |] eqn:Hgt.
    + destruct (scan_found _ _ _ _ Hgt) as (pre & r & post & -> & -> & Hpre & Hr).
      cbn [Nat.add]. rewrite take_app_length, drop_app_length.
      split.
      * cbn [List.length]. rewrite !length_app. cbn [List.length]. lia.
      * left. split; [exact Hout |]. exists pre, (r :: post). repeat split.
        unfold PortfolioPositionsGroup.sorted_by_time. cbn [tail].
        apply insert_keeps_order; assumption.
    + pose proof (scan_none _ _ _ Hgt) as Hle.
      split.
      * cbn [List.length]. rewrite !length_app. cbn [List.length]. lia.
      * left. split; [exact Hout |]. exists data, []. rewrite app_nil_r.
        repeat split.
        unfold PortfolioPositionsGroup.sorted_by_time. cbn [tail].
        apply insert_keeps_order; [rewrite app_nil_r; exact Hsorted | exact Hle | exact I].
Qed.
End CurveFacts.

Lemma C10_enhanced_price_curve_witness :
  let out := PortfolioPositionsGroup.enhancedPriceCurve (Utils.en_US_format 20)
               PortfolioPositionsGroup.calm_props "2024-01-01 10:00:50" in
  (List.length out <= 4)%nat
  /\ PortfolioPositionsGroup.sorted_by_time (Utils.en_US_format 20) out = true.
Proof.
  cbv zeta.
  destruct (C10_enhanced_price_curve (Utils.en_US_format 20)
              PortfolioPositionsGroup.calm_props "2024-01-01 10:00:50"
              eq_refl eq_refl eq_refl) as [_ H].
  destruct (H _ _ eq_refl) as [Hlen Hcases]. split; [exact Hlen |].
  destruct Hcases as [(_ & pre & post & _ & _ & Hs) | (pre & r & post & _ & _ & _ & _ & Hs)].
  - exact Hs.
  - reflexivity.
Defined.

(** With two points already in the current minute the first one is
    replaced by a later time and the curve no longer ascends; an empty curve
    grows by two rows. *)
Lemma C10_counterexample :
  let out := PortfolioPositionsGroup.enhancedPriceCurve (Utils.en_US_format 20)
               PortfolioPositionsGroup.busy_props "2024-01-01 10:00:50" in
  PortfolioPositionsGroup.useExchangeData PortfolioPositionsGroup.busy_props = true
  /\ Js.gt (PortfolioPositionsGroup.displayTotalEquity PortfolioPositionsGroup.busy_props)
          0%float = true
  /\ PortfolioPositionsGroup.sorted_by_time (Utils.en_US_format 20)
       (PortfolioPositionsGroup.priceCurve PortfolioPositionsGroup.busy_props) = true
  /\ out = [[PortfolioPositionsGroup.CStr "Time";
             PortfolioPositionsGroup.CStr "Portfolio Value"];
            [PortfolioPositionsGroup.CStr "2024-01-01 09:59:30";
             PortfolioPositionsGroup.CNum 1000%float];
            [PortfolioPositionsGroup.CStr "2024-01-01 10:00:50";
             PortfolioPositionsGroup.CNum 1200%float];
            [PortfolioPositionsGroup.CStr "2024-01-01 10:00:30";
             PortfolioPositionsGroup.CNum 1150%float]]
  /\ PortfolioPositionsGroup.sorted_by_time (Utils.en_US_format 20) out = false
  /\ List.length
       (PortfolioPositionsGroup.enhance (Utils.en_US_format 20) []
          "2024-01-01 10:00:50" 1200%float) = 2%nat.
Proof. cbv zeta. repeat split; reflexivity. Qed.

(** * Further properties *)

(** ** lib/utils.ts: signs, colours and icons *)

Section UtilsFacts.
Import Js Stock Utils.

Variable intl_format : nat -> float -> string.

Lemma gt_zero_not_zero (x : float) :
  gt x 0%float = true -> PrimFloat.eqb x 0%float = false.
Proof.
  unfold gt. rewrite FloatAxioms.ltb_spec, FloatAxioms.eqb_spec.
  change (Prim2SF 0%float) with (S754_zero false).
  destruct (Prim2SF x) as [s | s | | s m e]; cbn; try discriminate;
    destruct s; intros H; try discriminate; reflexivity.
Qed.

Lemma getChangeType_positive (x : float) :
  getChangeType (Some x) = positive <-> gt x 0%float = true.
Proof.
  unfold getChangeType. split.
  - destruct (PrimFloat.eqb x 0); [discriminate |].
    destruct (gt x 0); [reflexivity | discriminate].
  - intros H. rewrite (gt_zero_not_zero x H), H. reflexivity.
Qed.

(** The sign [formatChange] prints agrees with the change type that picks
    the colour: a text that prints a sign starts with "+" exactly when the
    change type is positive and with "-" otherwise, and a value the
    formatter prints as "0" carries no sign, whatever its change type. *)
Theorem formatChange_sign_matches_type (x : float) (suffix : string) (decimals : nat) :
  let shown := formatChange intl_format (Some x) suffix decimals in
  let value := intl_format decimals (PrimFloat.abs x) in
  (value = "0" -> shown = ("0" ++ suffix)%string)
  /\ (value <> "0" ->
      shown = ((if gt x 0%float then "+" else "-") ++ value ++ suffix)%string
      /\ (first_char shown = Some "+"%char <-> getChangeType (Some x) = positive)
      /\ (first_char shown = Some "-"%char <-> getChangeType (Some x) <> positive)).
Proof.
  cbv zeta. unfold formatChange, numberFixed.
  destruct (String.eqb_spec (intl_format decimals (PrimFloat.abs x)) "0") as [E | E].
  - split; [intros _; rewrite E; reflexivity | intros H; contradiction].
  - split; [intros H; contradiction |]. intros _.
    split; [reflexivity |]. rewrite getChangeType_positive.
    destruct (gt x 0); cbn; split; split; intros H;
      try reflexivity; try discriminate; try congruence.
Qed.
End UtilsFacts.

Section IconFacts.
Import Js Utils.

Lemma upper_char_separator (c : ascii) :
  is_ascii_char c = true -> is_separator (upper_char c) = is_separator c.
Proof.
  destruct c as [[] [] [] [] [] [] [] []]; intros H;
    first [vm_compute in H; discriminate H | reflexivity].
Qed.

Lemma lower_upper_char (c : ascii) :
  is_ascii_char c = true -> lower_char (upper_char c) = lower_char c.
Proof.
  destruct c as [[] [] [] [] [] [] [] []]; intros H;
    first [vm_compute in H; discriminate H | reflexivity].
Qed.

Lemma is_ascii_before_separator (s : string) :
  is_ascii s = true -> is_ascii (before_separator s) = true.
Proof.
  induction s as [| c s IH]; [reflexivity |].
  cbn [is_ascii before_separator]. intros H. apply andb_true_iff in H.
  destruct H as [Hc Hs]. destruct (is_separator c); [reflexivity |].
  cbn [is_ascii]. rewrite Hc, (IH Hs). reflexivity.
Qed.

Lemma before_separator_upper (s : string) :
  is_ascii s = true ->
  before_separator (toUpperCase s) = toUpperCase (before_separator s).
Proof.
  unfold toUpperCase. induction s as [| c s IH]; [reflexivity |].
  cbn [is_ascii map_string before_separator]. intros H.
  apply andb_true_iff in H. destruct H as [Hc Hs].
  rewrite (upper_char_separator c Hc). destruct (is_separator c); [reflexivity |].
  cbn [map_string]. f_equal. exact (IH Hs).
Qed.

Lemma lower_of_upper (s : string) :
  is_ascii s = true -> toLowerCase (toUpperCase s) = toLowerCase s.
Proof.
  unfold toLowerCase, toUpperCase. induction s as [| c s IH]; [reflexivity |].
  cbn [is_ascii map_string]. intros H.
  apply andb_true_iff in H. destruct H as [Hc Hs].
  rewrite (lower_upper_char c Hc). f_equal. exact (IH Hs).
Qed.

Lemma before_separator_app (base rest : string) (sep : ascii) :
  is_separator sep = true ->
  before_separator (base ++ String sep rest) = before_separator base.
Proof.
  intros Hsep. induction base as [| c base IH].
  - change (before_separator (String sep rest) = EmptyString).
    cbn [before_separator]. rewrite Hsep. reflexivity.
  - change (before_separator (String c (base ++ String sep rest))
            = before_separator (String c base)).
    cbn [before_separator]. destruct (is_separator c); [reflexivity |].
    f_equal. exact IH.
Qed.

(** The icon of a trading pair is the icon of its base coin: what follows
    the first "-" or "/" does not change the address, which is the fixed
    prefix, the lower-case base and "@2x.png"; for a symbol of ASCII
    characters the letter case of the symbol does not change it either. *)
Theorem getCoinCapIcon_base_only (base quote : string) :
  getCoinCapIcon (base ++ "-" ++ quote) = getCoinCapIcon base
  /\ getCoinCapIcon (base ++ "/" ++ quote) = getCoinCapIcon base
  /\ (is_ascii base = true ->
      getCoinCapIcon (toUpperCase base) = getCoinCapIcon base
      /\ getCoinCapIcon (toUpperCase base ++ "-" ++ quote) = getCoinCapIcon base)
  /\ getCoinCapIcon base =
     ("https://assets.coincap.io/assets/icons/"
      ++ toLowerCase (before_separator base) ++ "@2x.png")%string.
Proof.
  unfold getCoinCapIcon. cbv zeta.
  change (base ++ "-" ++ quote)%string with (base ++ String "-" quote)%string.
  change (base ++ "/" ++ quote)%string with (base ++ String "/" quote)%string.
  change (toUpperCase base ++ "-" ++ quote)%string
    with (toUpperCase base ++ String "-" quote)%string.
  rewrite !before_separator_app by reflexivity.
  split; [reflexivity |]. split; [reflexivity |]. split; [| reflexivity].
  intros Hascii.
  rewrite (before_separator_upper base Hascii),
    (lower_of_upper _ (is_ascii_before_separator base Hascii)).
  split; reflexivity.
Qed.
End IconFacts.

(** ** store/settings-store.ts: the colour tables *)

Section ColourFacts.
Import Stock.

(** The three colour tables agree: in either colour mode the badge text of a
    change type has the colour of the plain table, badge and gradient follow
    the same up/down assignment, and the two modes are mirror images (up and
    down exchanged, neutral kept). *)
Theorem colour_tables_agree (colorMode : StockColorMode) (t : StockChangeType) :
  text (useStockBadgeColors colorMode t) = useStockColors colorMode t
  /\ (useStockBadgeColors colorMode t = GREEN_BADGE
      <-> useStockGradientColors colorMode t = GREEN_GRADIENT)
  /\ (useStockBadgeColors colorMode t = RED_BADGE
      <-> useStockGradientColors colorMode t = RED_GRADIENT)
  /\ useStockColors RED_UP_GREEN_DOWN t = useStockColors GREEN_UP_RED_DOWN (mirrored t)
  /\ useStockBadgeColors RED_UP_GREEN_DOWN t
     = useStockBadgeColors GREEN_UP_RED_DOWN (mirrored t)
  /\ useStockGradientColors RED_UP_GREEN_DOWN t
     = useStockGradientColors GREEN_UP_RED_DOWN (mirrored t)
  /\ useStockColors colorMode neutral = NEUTRAL_COLOR.
Proof.
  destruct colorMode, t; cbn; repeat split; intros H; try reflexivity;
    try discriminate H; inversion H.
Qed.
End ColourFacts.

(** ** Create-strategy modal: the other schemas and the steps *)

Section WizardFacts.
Import Js Zod StrategyTypes Api CreateStrategyModal.

Lemma leb_not_nan (a x : float) :
  PrimFloat.leb a x = true -> PrimFloat.is_nan x = false.
Proof.
  unfold PrimFloat.is_nan. rewrite FloatAxioms.leb_spec, FloatAxioms.eqb_spec.
  destruct (Prim2SF x) as [s | s | | s m e]; destruct (Prim2SF a) as [s' | s' | | s' m' e'];
    cbn; try discriminate; try (destruct s; reflexivity); intros _.
  all: destruct s; rewrite Z.compare_refl, Pos.compare_cont_refl; reflexivity.
Qed.

Lemma in_range_lo (lo x : float) :
  in_range (Some lo) None x = PrimFloat.leb lo x.
Proof.
  unfold in_range. destruct (PrimFloat.leb lo x) eqn:E.
  - rewrite (leb_not_nan lo x E). reflexivity.
  - rewrite andb_false_r. reflexivity.
Qed.

Lemma in_range_lo_hi (lo hi x : float) :
  in_range (Some lo) (Some hi) x = PrimFloat.leb lo x && PrimFloat.leb x hi.
Proof.
  unfold in_range. destruct (PrimFloat.leb lo x) eqn:E.
  - rewrite (leb_not_nan lo x E). reflexivity.
  - rewrite andb_false_r. reflexivity.
Qed.

Lemma strings_accepted (l : list string) :
  forallb (accepts (ZString 0)) (map JStr l) = true.
Proof. induction l as [| s l IH]; [reflexivity | exact IH]. Qed.

Lemma step1Schema_unfold (v : Step1Values) :
  accepts step1Schema (form1_values v) =
  nonempty (f1_provider v) && nonempty (f1_model_id v) && nonempty (f1_api_key v).
Proof.
  destruct v as [p m k]. cbn. unfold nonempty.
  rewrite andb_true_r, andb_assoc. reflexivity.
Qed.

Lemma step3Schema_unfold (v : Step3Values) :
  accepts step3Schema (form3_values v) =
  existsb (String.eqb (f3_strategy_type v)) ["PromptBasedStrategy"; "GridStrategy"]
  && nonempty (f3_strategy_name v)
  && PrimFloat.leb 1%float (f3_initial_capital v)
  && (PrimFloat.leb 1%float (f3_max_leverage v)
      && PrimFloat.leb (f3_max_leverage v) 5%float)
  && (1 <=? List.length (f3_symbols v))%nat
  && nonempty (f3_template_id v).
Proof.
  destruct v as [ty name ic ml syms tpl].
  cbn [accepts step3Schema obj_lit fold_left obj_set fst snd forallb form3_values
       field obj_get String.eqb Ascii.eqb Bool.eqb
       f3_strategy_type f3_strategy_name f3_initial_capital f3_max_leverage
       f3_symbols f3_template_id].
  rewrite in_range_lo, in_range_lo_hi, strings_accepted, length_map.
  unfold nonempty. rewrite !andb_true_r, !andb_assoc. reflexivity.
Qed.

(** The step-3 values pass validation exactly when the strategy type is one
    of the two known types, the name is not empty, the initial capital is
    at least 1, the leverage lies between 1 and 5, at least one symbol is
    chosen and a template is chosen; the template is required for a grid
    strategy too, and NaN passes for neither number. *)
Theorem step3_validation (v : Step3Values) :
  accepts step3Schema (form3_values v) = true <->
  (f3_strategy_type v = "PromptBasedStrategy" \/ f3_strategy_type v = "GridStrategy")
  /\ f3_strategy_name v <> ""
  /\ PrimFloat.leb 1%float (f3_initial_capital v) = true
  /\ PrimFloat.leb 1%float (f3_max_leverage v) = true
  /\ PrimFloat.leb (f3_max_leverage v) 5%float = true
  /\ f3_symbols v <> []
  /\ f3_template_id v <> "".
Proof.
  rewrite step3Schema_unfold.
  rewrite !andb_true_iff, eqb_in, !nonempty_true. cbn [In].
  assert (Hsym : (1 <=? List.length (f3_symbols v))%nat = true <-> f3_symbols v <> []).
  { destruct (f3_symbols v); cbn; split; intros H; try discriminate; try reflexivity.
    exfalso. apply H. reflexivity. }
  rewrite Hsym. intuition (auto; congruence).
Qed.

(** The step-1 values pass validation exactly when provider, model and API
    key are all filled in. *)
Lemma step1_validation (v : Step1Values) :
  accepts step1Schema (form1_values v) = true <->
  f1_provider v <> "" /\ f1_model_id v <> "" /\ f1_api_key v <> "".
Proof.
  rewrite step1Schema_unfold, !andb_true_iff, !nonempty_true. tauto.
Qed.

(** Clearing the capital or the leverage field stores 0, and with a 0 in
    either field the step-3 values no longer pass validation, whatever the
    other fields hold. *)
Theorem cleared_number_field_blocks_step3 (to_number : string -> float)
        (v : Step3Values) :
  NumberField.onChange to_number "" = 0%float
  /\ accepts step3Schema
       (form3_values
          {| f3_strategy_type := f3_strategy_type v;
             f3_strategy_name := f3_strategy_name v;
             f3_initial_capital := NumberField.onChange to_number "";
             f3_max_leverage := f3_max_leverage v;
             f3_symbols := f3_symbols v;
             f3_template_id := f3_template_id v |}) = false
  /\ accepts step3Schema
       (form3_values
          {| f3_strategy_type := f3_strategy_type v;
             f3_strategy_name := f3_strategy_name v;
             f3_initial_capital := f3_initial_capital v;
             f3_max_leverage := NumberField.onChange to_number "";
             f3_symbols := f3_symbols v;
             f3_template_id := f3_template_id v |}) = false.
Proof.
  split; [reflexivity |].
  rewrite !step3Schema_unfold. cbn [f3_initial_capital f3_max_leverage].
  change (NumberField.onChange to_number "") with 0%float.
  change (PrimFloat.leb 1 0) with false.
  split; repeat first [rewrite andb_false_r | progress cbn [andb]]; reflexivity.
Qed.

(** *** The steps *)

Variable TRADING_SYMBOLS : list string.
Variable prompt_ids : list string.

Local Abbreviation react := (CreateStrategyModal.react TRADING_SYMBOLS prompt_ids).
Local Abbreviation run := (CreateStrategyModal.run TRADING_SYMBOLS prompt_ids).
Local Abbreviation initial_modal :=
  (CreateStrategyModal.initial_modal TRADING_SYMBOLS prompt_ids).

Lemma initial_validated : steps_validated initial_modal.
Proof. split; cbn; intros H; [contradiction | discriminate]. Qed.

Lemma react_validated (m : Modal) (e : Event) :
  steps_validated m -> steps_validated (fst (react m e)).
Proof.
  intros [H1 H2]. destruct m as [o st f1 f2 f3]. cbn in H1, H2.
  destruct e as [v | v | v | b | | | b]; unfold CreateStrategyModal.react.
  - destruct st; cbn; split; intros H; auto; try contradiction; discriminate.
  - destruct st; cbn; split; intros H; auto; try contradiction; try discriminate.
  - cbn. split; auto.
  - unfold handleNext. cbn [currentStep form1 form2 form3].
    destruct st.
    + destruct (accepts step1Schema (form1_values f1)) eqn:E; cbn; split; intros H;
        auto; try contradiction; discriminate.
    + destruct (accepts step2Schema (form2_values f2)) eqn:E; cbn; split; intros H;
        auto; try discriminate.
    + destruct (accepts step3Schema (form3_values f3)) eqn:E; [destruct b |]; cbn;
        split; intros H; auto; try contradiction; discriminate.
  - destruct st; cbn; split; intros H; auto; try contradiction; try discriminate.
  - cbn. split; intros H; [contradiction | discriminate].
  - cbn. split; auto.
Qed.

Lemma react_request (m : Modal) (e : Event) (r : Request) :
  steps_validated m -> snd (react m e) = Some r ->
  well_formed r = true /\ req_method r = "POST" /\ req_path r = "/strategies/create".
Proof.
  intros [H1 H2] Hr. destruct e as [v | v | v | b | | | b]; try discriminate Hr.
  unfold CreateStrategyModal.react in Hr.
  destruct (handleNext TRADING_SYMBOLS prompt_ids m) as [m' [r' |]] eqn:Hn;
    [| discriminate Hr].
  cbn in Hr. inversion Hr; subst r'.
  apply handleNext_request in Hn. destruct Hn as (Hst & H3 & ->).
  unfold well_formed.
  change (field "llm_model_config" (req_body (form3_onSubmit (form1 m) (form2 m) (form3 m))))
    with (form1_values (form1 m)).
  change (field "exchange_config" (req_body (form3_onSubmit (form1 m) (form2 m) (form3 m))))
    with (form2_values (form2 m)).
  change (field "trading_config" (req_body (form3_onSubmit (form1 m) (form2 m) (form3 m))))
    with (form3_values (form3 m)).
  rewrite H1, H2, H3 by (rewrite ?Hst; congruence). repeat split.
Qed.

Lemma run_cons (m : Modal) (e : Event) (rest : list Event) :
  run m (e :: rest) =
  (fst (run (fst (react m e)) rest),
   match snd (react m e) with
   | Some r => r :: snd (run (fst (react m e)) rest)
   | None => snd (run (fst (react m e)) rest)
   end).
Proof.
  cbn [CreateStrategyModal.run]. destruct (react m e) as [m1 sent].
  cbn [fst snd]. destruct (run m1 rest) as [m2 later]. reflexivity.
Qed.

Lemma run_validated (events : list Event) (m : Modal) :
  steps_validated m -> steps_validated (fst (run m events)).
Proof.
  revert m. induction events as [| e rest IH]; intros m Hm; [exact Hm |].
  rewrite run_cons. cbn [fst]. apply IH, react_validated, Hm.
Qed.

Lemma run_requests (events : list Event) (m : Modal) (r : Request) :
  steps_validated m -> In r (snd (run m events)) ->
  well_formed r = true /\ req_method r = "POST" /\ req_path r = "/strategies/create".
Proof.
  revert m. induction events as [| e rest IH]; intros m Hm Hin; [destruct Hin |].
  rewrite run_cons in Hin. cbn [snd] in Hin.
  destruct (snd (react m e)) as [r' |] eqn:Hsent.
  - destruct Hin as [-> | Hin].
    + apply (react_request m e); assumption.
    + apply (IH (fst (react m e))); [apply react_validated, Hm | exact Hin].
  - apply (IH (fst (react m e))); [apply react_validated, Hm | exact Hin].
Qed.

(** Whatever the user does from the freshly mounted modal (editing the form
    on screen, Next, Back, Cancel, closing, requests that fail), every
    request the modal sends is a POST to /strategies/create whose
    llm_model_config, exchange_config and trading_config pass the schemas of
    steps 1, 2 and 3. *)
Theorem every_request_validated (events : list Event) (r : Request) :
  In r (snd (run initial_modal events)) ->
  well_formed r = true /\ req_method r = "POST" /\ req_path r = "/strategies/create".
Proof. apply run_requests, initial_validated. Qed.

(** From any state the user can reach on step 3, Back followed by Next
    returns to the very same state and sends nothing: the exchange form left
    behind is still valid, and showing it again changes none of its values.
    (The model form of step 1 reloads the provider's defaults when it is
    shown again, so the same does not hold one step earlier.) *)
Theorem back_then_next (events : list Event) (resolved : bool) :
  let m := fst (run initial_modal events) in
  currentStep m = Step3 ->
  let back := fst (react m ClickLeft) in
  currentStep back = Step2
  /\ react back (ClickNext resolved) = (m, None).
Proof.
  cbv zeta. intros Hst.
  destruct (run_validated events initial_modal initial_validated) as [_ H2].
  destruct (fst (run initial_modal events)) as [o st f1 f2 f3].
  cbn [currentStep form1 form2] in H2, Hst. subst st.
  unfold CreateStrategyModal.react, handleNext, handleBack.
  cbn [currentStep setCurrentStep form1 form2 form3 fst].
  rewrite (H2 eq_refl). split; reflexivity.
Qed.

(** The step indicator marks exactly one step as current, shows a check
    mark on exactly the steps before it, writes the titles up to it in the
    active tone, and draws two connectors, dark behind the completed steps
    and none after the last step. *)
Theorem step_indicator_marks (cur : StepNumber) :
  let views := StepIndicator cur in
  List.length (List.filter number_highlighted views) = 1%nat
  /\ map number_highlighted views
     = map (fun s => (step_number (fst s) =? step_number cur)%nat) STEPS
  /\ map shows_check views = map (fun s => (step_number (fst s) <? step_number cur)%nat) STEPS
  /\ map title_active views = map (fun s => (step_number (fst s) <=? step_number cur)%nat) STEPS
  /\ map connector views
     = [Some (1 <? step_number cur)%nat; Some (2 <? step_number cur)%nat; None]
  /\ (forall s, isActive (getStepState cur s)
                = isCompleted (getStepState cur s) || isCurrent (getStepState cur s))
  /\ (forall s, isCurrent (getStepState cur s) = true <-> s = cur).
Proof.
  cbv zeta. destruct cur; repeat split; try reflexivity;
    try (destruct s; reflexivity);
    try (destruct s; cbn; intros H; congruence).
Qed.
End WizardFacts.

Lemma every_request_validated_witness :
  exists r,
    snd (CreateStrategyModal.run [] [] (CreateStrategyModal.initial_modal [] [])
           CreateStrategyModal.okx_session) = [r]
    /\ CreateStrategyModal.well_formed r = true.
Proof.
  eexists. split; [reflexivity |].
  eapply (every_request_validated [] [] CreateStrategyModal.okx_session).
  left. reflexivity.
Defined.

Lemma back_then_next_witness :
  let m := fst (CreateStrategyModal.run [] [] (CreateStrategyModal.initial_modal [] [])
                  CreateStrategyModal.okx_session) in
  CreateStrategyModal.currentStep m = CreateStrategyModal.Step3
  /\ CreateStrategyModal.react [] []
       (fst (CreateStrategyModal.react [] [] m CreateStrategyModal.ClickLeft))
       (CreateStrategyModal.ClickNext true) = (m, None).
Proof.
  cbv zeta. split; [reflexivity |].
  apply (back_then_next [] [] CreateStrategyModal.okx_session true).
  reflexivity.
Defined.

(** ** components/valuecell/multi-select.tsx *)

Section MultiSelectFacts.
Import MultiSelect.

Lemma includes_In (values : list string) (v : string) :
  includes values v = true <-> In v values.
Proof. unfold includes. apply eqb_in. Qed.

Lemma includes_not_In (values : list string) (v : string) :
  includes values v = false <-> ~ In v values.
Proof.
  rewrite <- includes_In. destruct (includes values v); split; intros H;
    try discriminate; try reflexivity; try (intros H'; discriminate).
  exfalso. apply H. reflexivity.
Qed.

Lemma In_without (v w : string) (values : list string) :
  In w (without v values) <-> In w values /\ w <> v.
Proof.
  unfold without. rewrite filter_In, negb_true_iff, String.eqb_neq. reflexivity.
Qed.

Lemma length_without (v : string) (values : list string) :
  (List.length (without v values) <= List.length values)%nat.
Proof.
  unfold without. induction values as [| a l IH]; cbn; [lia |].
  destruct (negb (String.eqb a v)); cbn; lia.
Qed.

(** [handleSelect] keeps a selection in shape: no value is selected twice
    if none was, and a selection within a positive [maxSelected] stays
    within it. *)
Theorem handleSelect_keeps_shape (maxSelected : option Z) (selectedValues : list string)
        (optionValue : string) (newValue : list string) :
  handleSelect maxSelected selectedValues optionValue = Some newValue ->
  (List.NoDup selectedValues -> List.NoDup newValue)
  /\ (forall n, maxSelected = Some n -> (0 < n)%Z ->
        (Z.of_nat (List.length selectedValues) <= n)%Z ->
        (Z.of_nat (List.length newValue) <= n)%Z).
Proof.
  unfold handleSelect. cbv zeta.
  destruct (includes selectedValues optionValue) eqn:Hin.
  - intros H. inversion H; subst newValue. split.
    + intros Hnd. unfold without. apply List.NoDup_filter, Hnd.
    + intros n _ _ Hlen. pose proof (length_without optionValue selectedValues). lia.
  - destruct (limit_reached maxSelected selectedValues) eqn:Hlim; [discriminate |].
    intros H. inversion H; subst newValue. split.
    + intros Hnd. apply includes_not_In in Hin.
      apply List.NoDup_app; [exact Hnd | repeat constructor; intros [] |].
      intros x Hx [<- | []]. contradiction.
    + intros n -> Hpos Hlen. unfold limit_reached in Hlim.
      apply andb_false_iff in Hlim. destruct Hlim as [Hz | Hz].
      * apply negb_false_iff, Z.eqb_eq in Hz. lia.
      * apply Z.leb_gt in Hz. rewrite length_app. cbn [List.length]. lia.
Qed.

(** [handleSelect] toggles one value and touches no other: it returns early
    exactly when the value is not selected and the limit is reached;
    otherwise the value is selected afterwards exactly when it was not
    before, and every other value keeps its state. *)
Theorem handleSelect_toggles (maxSelected : option Z) (selectedValues : list string)
        (optionValue : string) :
  (handleSelect maxSelected selectedValues optionValue = None <->
   ~ In optionValue selectedValues /\ limit_reached maxSelected selectedValues = true)
  /\ (forall newValue,
        handleSelect maxSelected selectedValues optionValue = Some newValue ->
        (In optionValue newValue <-> ~ In optionValue selectedValues)
        /\ (forall w, w <> optionValue -> (In w newValue <-> In w selectedValues))).
Proof.
  unfold handleSelect. cbv zeta.
  destruct (includes selectedValues optionValue) eqn:Hin.
  - apply includes_In in Hin. split.
    + split; [discriminate | intros [H _]; contradiction].
    + intros newValue H. inversion H; subst newValue. split.
      * rewrite In_without. split; [intros [_ H']; congruence | intros H'; contradiction].
      * intros w Hw. rewrite In_without. tauto.
  - apply includes_not_In in Hin.
    destruct (limit_reached maxSelected selectedValues) eqn:Hlim.
    + split; [tauto | discriminate].
    + split; [split; [discriminate | intros [_ H]; discriminate] |].
      intros newValue H. inversion H; subst newValue. split.
      * rewrite in_app_iff. cbn. tauto.
      * intros w Hw. rewrite in_app_iff. cbn. split; [| tauto].
        intros [H' | [H' | []]]; [exact H' | congruence].
Qed.

Lemma with_custom_values (opts : list MultiSelectOption) (val v : string) :
  In v (map value (with_custom opts val)) <-> In v (map value opts) \/ v = val.
Proof.
  unfold with_custom.
  destruct (existsb (fun o => String.eqb (value o) val) opts) eqn:E.
  - split; [tauto |]. intros [H | ->]; [exact H |].
    apply existsb_exists in E. destruct E as (o & Ho & Heq).
    apply String.eqb_eq in Heq. subst val. apply in_map, Ho.
  - rewrite map_app, in_app_iff. cbn. split.
    + intros [H | [H | []]]; auto.
    + intros [H | ->]; auto.
Qed.

Lemma fold_with_custom_values (selectedValues : list string)
      (opts : list MultiSelectOption) (v : string) :
  In v (map value (fold_left with_custom selectedValues opts)) <->
  In v (map value opts) \/ In v selectedValues.
Proof.
  revert opts. induction selectedValues as [| val rest IH]; intros opts.
  - cbn. tauto.
  - cbn [fold_left]. rewrite IH, with_custom_values. cbn [In].
    split; intros H; intuition congruence.
Qed.

(** The badges stand for exactly the selected values: a value has a
    selected option if and only if it is selected, whether it is one of the
    options or a value the user created; and every selected option is either
    displayed or counted in the "+N" badge. *)
Theorem selectedOptions_cover (normalized : list MultiSelectOption)
        (selectedValues : list string) (maxDisplayed : nat) :
  let selected := selectedOptions normalized selectedValues in
  (forall v, In v (map value selected) <-> In v selectedValues)
  /\ (List.length (displayedOptions maxDisplayed selected)
      + remainingCount maxDisplayed selected = List.length selected)%nat
  /\ (remainingCount maxDisplayed selected = 0%nat
      <-> displayedOptions maxDisplayed selected = selected).
Proof.
  cbv zeta. split; [| split].
  - intros v. unfold selectedOptions. cbv zeta. rewrite in_map_iff. split.
    + intros (o & <- & Ho). apply filter_In in Ho. destruct Ho as [_ Ho].
      apply includes_In, Ho.
    + intros Hv.
      assert (Hin : In v (map value (fold_left with_custom selectedValues normalized)))
        by (apply fold_with_custom_values; right; exact Hv).
      apply in_map_iff in Hin. destruct Hin as (o & Heq & Ho).
      exists o. split; [exact Heq |]. apply filter_In. split; [exact Ho |].
      rewrite Heq. apply includes_In, Hv.
  - unfold displayedOptions, remainingCount. rewrite length_take. lia.
  - unfold displayedOptions, remainingCount. split.
    + intros H. apply take_ge. lia.
    + intros H. apply (f_equal (@List.length _)) in H. rewrite length_take in H. lia.
Qed.
End MultiSelectFacts.

Lemma handleSelect_keeps_shape_witness :
  MultiSelect.handleSelect (Some 3%Z) ["BTC-USDT"; "ETH-USDT"] "SOL-USDT"
  = Some ["BTC-USDT"; "ETH-USDT"; "SOL-USDT"]
  /\ (Z.of_nat (List.length ["BTC-USDT"; "ETH-USDT"; "SOL-USDT"]) <= 3)%Z.
Proof.
  split; [reflexivity |].
  destruct (handleSelect_keeps_shape (Some 3%Z) ["BTC-USDT"; "ETH-USDT"] "SOL-USDT"
              ["BTC-USDT"; "ETH-USDT"; "SOL-USDT"] eq_refl) as [_ H].
  apply (H 3%Z eq_refl); reflexivity || (cbn; lia).
Defined.

(** ** Portfolio panel: the three figures *)

Section FigureFacts.
Import Js StrategyTypes PortfolioPositionsGroup.

Lemma totals_counted (p : Props) :
  hasAccountInfo p = false ->
  totals p = {| assetsTotalEquity := sum_of equity (counted p);
                assetsAvailableBalance := sum_of available (counted p);
                assetsTotalPnl := sum_of asset_unrealized_pnl (counted p) |}.
Proof.
  intros Hacc. unfold counted. destruct (assets_ p) as [a |] eqn:Ha.
  - rewrite (totals_sums p a Hacc Ha). unfold hasAssets. rewrite Ha.
    destruct (assets a) as [| x l] eqn:Hl; [| reflexivity].
    cbn. unfold counted_assets. destruct (isWeex p); reflexivity.
  - unfold totals, hasAssets. rewrite Ha, andb_false_r. reflexivity.
Qed.

Lemma useAssetsData_counted (p : Props) :
  useAssetsData p =
  negb (hasAccountInfo p)
  && (gt (sum_of equity (counted p)) 0%float
      || gt (sum_of available (counted p)) 0%float).
Proof.
  unfold useAssetsData. destruct (hasAccountInfo p) eqn:Hacc; [reflexivity |].
  rewrite (totals_counted p Hacc). cbn [negb andb assetsTotalEquity assetsAvailableBalance].
  unfold hasAssets, counted. destruct (assets_ p) as [a |]; [| reflexivity].
  destruct (assets a) as [| x l]; [| reflexivity].
  unfold counted_assets. destruct (isWeex p); reflexivity.
Qed.

(** Where the three figures come from.  With account info in use, equity
    and available balance are the account's while the P&L is still the
    summary's; with asset data in use all three are sums over the counted
    assets; otherwise all three are the summary's (0 without one).  The two
    exchange regimes exclude each other, and all three figures carry the
    same "From <EXCHANGE>" note, shown exactly when one of the regimes
    applies and the exchange id is not empty. *)
Theorem figure_sources (p : Props) :
  (hasAccountInfo p = true ->
     useAssetsData p = false
     /\ exists ai, accountInfo p = Some ai
        /\ displayTotalEquity p = total_equity ai
        /\ displayAvailableBalance p = total_available ai
        /\ displayTotalPnl p = summary_or_zero total_pnl p)
  /\ (useAssetsData p = true ->
        hasAccountInfo p = false
        /\ displayTotalEquity p = sum_of equity (counted p)
        /\ displayAvailableBalance p = sum_of available (counted p)
        /\ displayTotalPnl p = sum_of asset_unrealized_pnl (counted p))
  /\ (useExchangeData p = false ->
        displayTotalEquity p = summary_or_zero total_value p
        /\ displayAvailableBalance p = summary_or_zero cash p
        /\ displayTotalPnl p = summary_or_zero total_pnl p)
  /\ map note (figures p) = [source_note p; source_note p; source_note p]
  /\ (source_note p <> None <->
      useExchangeData p = true
      /\ exists e, exchangeId p = Some e /\ e <> ""
         /\ source_note p = Some ("From " ++ toUpperCase e)%string).
Proof.
  pose proof (useAssetsData_counted p) as Hu.
  split; [| split; [| split; [| split]]].
  - intros Hacc. rewrite Hacc in Hu. split; [exact Hu |].
    unfold displayTotalEquity, displayAvailableBalance, displayTotalPnl,
      useAccountInfo, summary_or_zero.
    rewrite Hacc, Hu. unfold hasAccountInfo in Hacc.
    destruct (accountInfo p) as [ai |]; [| discriminate].
    exists ai. repeat split.
  - intros Hass. rewrite Hass in Hu.
    destruct (hasAccountInfo p) eqn:Hacc; [discriminate |].
    unfold displayTotalEquity, displayAvailableBalance, displayTotalPnl, useAccountInfo.
    rewrite Hacc, Hass, (totals_counted p Hacc). repeat split.
  - unfold useExchangeData, useAccountInfo. intros Hex.
    apply orb_false_iff in Hex. destruct Hex as [Hacc Hass].
    unfold displayTotalEquity, displayAvailableBalance, displayTotalPnl,
      useAccountInfo, summary_or_zero.
    rewrite Hacc, Hass. repeat split.
  - reflexivity.
  - unfold source_note. destruct (exchangeId p) as [e |].
    + destruct (useExchangeData p); cbn [andb].
      * destruct (nonempty e) eqn:He.
        -- split; [| discriminate]. intros _. split; [reflexivity |].
           exists e. split; [reflexivity |]. split; [| reflexivity].
           apply nonempty_true, He.
        -- split; [intros H; contradiction |].
           intros (_ & e' & He' & Hne & _). inversion He'; subst e'.
           apply nonempty_true in Hne. congruence.
      * split; [intros H; contradiction | intros [H _]; discriminate].
    + split; [intros H; contradiction | intros (_ & e & He & _); discriminate].
Qed.

Lemma counted_with_assets (p : Props) (l : list ExchangeAsset) :
  counted (with_assets p l) =
  match assets_ p with
  | Some _ => counted_assets (isWeex p) l
  | None => []
  end.
Proof. unfold counted, with_assets. cbn. destruct (assets_ p); reflexivity. Qed.

Lemma hasAccountInfo_with_assets (p : Props) (l : list ExchangeAsset) :
  hasAccountInfo (with_assets p l) = hasAccountInfo p.
Proof. reflexivity. Qed.

Lemma figures_by_counted (p q : Props) :
  accountInfo q = accountInfo p -> summary q = summary p -> counted q = counted p ->
  displayTotalEquity q = displayTotalEquity p
  /\ displayAvailableBalance q = displayAvailableBalance p
  /\ displayTotalPnl q = displayTotalPnl p.
Proof.
  intros Ha Hs Hc.
  assert (Hacc : hasAccountInfo q = hasAccountInfo p)
    by (unfold hasAccountInfo; rewrite Ha; reflexivity).
  assert (Hu : useAssetsData q = useAssetsData p)
    by (rewrite !useAssetsData_counted, Hacc, Hc; reflexivity).
  unfold displayTotalEquity, displayAvailableBalance, displayTotalPnl, useAccountInfo.
  rewrite Hu, Hacc, Ha, Hs.
  destruct (hasAccountInfo p) eqn:E.
  - destruct (useAssetsData p) eqn:E2; [| repeat split].
    rewrite useAssetsData_counted, E in E2. discriminate.
  - rewrite (totals_counted q Hacc), (totals_counted p E), Hc. repeat split.
Qed.

(** On Weex an asset that is no quote currency (its upper-cased coin name is
    none of USDT, USD, USDC) changes none of the three figures, wherever it
    stands in the asset list and even when it is the only asset. *)
Theorem weex_ignores_other_coins (p : Props) (before after : list ExchangeAsset)
        (a : ExchangeAsset) :
  isWeex p = true ->
  is_quote_coin (toUpperCase (coin_name a)) = false ->
  displayTotalEquity (with_assets p (before ++ a :: after))
  = displayTotalEquity (with_assets p (before ++ after))
  /\ displayAvailableBalance (with_assets p (before ++ a :: after))
     = displayAvailableBalance (with_assets p (before ++ after))
  /\ displayTotalPnl (with_assets p (before ++ a :: after))
     = displayTotalPnl (with_assets p (before ++ after)).
Proof.
  intros Hw Ha. apply figures_by_counted; try reflexivity.
  rewrite !counted_with_assets. destruct (assets_ p); [| reflexivity].
  rewrite Hw. unfold counted_assets.
  rewrite !List.filter_app. cbn [List.filter]. rewrite Ha. reflexivity.
Qed.
End FigureFacts.

Lemma weex_ignores_other_coins_witness :
  PortfolioPositionsGroup.displayTotalEquity
    (PortfolioPositionsGroup.with_assets PortfolioPositionsGroup.weex_props
       [PortfolioPositionsGroup.btc_asset; PortfolioPositionsGroup.usdt_asset])
  = 50%float.
Proof.
  destruct (weex_ignores_other_coins PortfolioPositionsGroup.weex_props []
              [PortfolioPositionsGroup.usdt_asset]
              PortfolioPositionsGroup.btc_asset eq_refl eq_refl) as [H _].
  cbn [app] in H. etransitivity; [exact H | reflexivity].
Defined.

(** ** Portfolio panel: the chart *)

Section ChartFacts.
Import Js StrategyTypes PortfolioPositionsGroup.

Variable number_toString : float -> string.

Local Abbreviation in_minute := (PortfolioPositionsGroup.in_minute number_toString).
Local Abbreviation enhance := (PortfolioPositionsGroup.enhance number_toString).

Lemma scan_skip (p : Row -> bool) (pre post : list Row) (r : Row) (k : nat) :
  forallb (fun r' => negb (p r')) pre = true -> p r = true ->
  scan p (pre ++ r :: post) k = Some (k + List.length pre)%nat.
Proof.
  revert k. induction pre as [| x pre IH]; intros k Hpre Hr; cbn [app scan List.length].
  - rewrite Hr, Nat.add_0_r. reflexivity.
  - cbn [forallb] in Hpre. apply andb_true_iff in Hpre. destruct Hpre as [Hx Hpre].
    apply negb_true_iff in Hx. rewrite Hx, (IH (S k) Hpre Hr). f_equal. lia.
Qed.

Lemma forallb_take (p : Row -> bool) (rows : list Row) (j : nat) :
  forallb p rows = true -> forallb p (take j rows) = true.
Proof.
  intros H. rewrite <- (take_drop j rows), forallb_app in H.
  apply andb_true_iff in H. apply H.
Qed.

(** The enhanced curve is always a first row, rows outside the current
    minute, the new point, and further rows. *)
Lemma enhance_shape (curve : list Row) (timeStr : string) (v : float) :
  exists h pre post,
    enhance curve timeStr v = h :: pre ++ [CStr timeStr; CNum v] :: post
    /\ forallb (fun r => negb (in_minute timeStr r)) pre = true.
Proof.
  destruct curve as [| header data].
  - exists [CStr "Time"; CStr "Portfolio Value"], [], []. split; reflexivity.
  - rewrite enhance_cons. cbv zeta.
    destruct (scan (in_minute timeStr) data 0) as [i |] eqn:Hmin.
    + destruct (scan_found _ _ _ _ Hmin) as (pre & r & post & -> & -> & Hpre & Hr).
      cbn [Nat.add]. rewrite insert_middle. exists header, pre, post. split; auto.
    + pose proof (scan_none _ _ _ Hmin) as Hout.
      destruct (scan (fun row => String.ltb timeStr (row_time number_toString row)) data 0)
        as [j |].
      * exists header, (take j data), (drop j data). split; [reflexivity |].
        apply forallb_take, Hout.
      * exists header, data, []. split; [reflexivity | exact Hout].
Qed.

(** Whether the chart or the "No portfolio value data" placeholder is
    drawn: the chart is drawn whenever exchange data is in use with a
    positive Total Equity, even when the strategy has no price curve at
    all, and otherwise exactly when the price curve has a row. *)
Theorem chart_is_drawn (p : Props) (timeStr : string) :
  hasEnhancedPriceCurve number_toString p timeStr
  = (useExchangeData p && gt (displayTotalEquity p) 0%float)
    || (0 <? List.length (priceCurve p))%nat.
Proof.
  unfold hasEnhancedPriceCurve, enhancedPriceCurve.
  destruct (useExchangeData p && gt (displayTotalEquity p) 0%float); [| reflexivity].
  destruct (enhance_shape (priceCurve p) timeStr (displayTotalEquity p))
    as (h & pre & post & -> & _).
  reflexivity.
Qed.

(** Enhancing an enhanced curve again within the same minute (the first
    16 characters of the two clock strings agree) adds no row: it replaces
    exactly the point the first call set. *)
Theorem enhance_again_same_minute (curve : list Row) (t t' : string) (v v' : float) :
  slice0 16 t' = slice0 16 t ->
  exists h pre post,
    enhance curve t v = h :: pre ++ [CStr t; CNum v] :: post
    /\ enhance (enhance curve t v) t' v' = h :: pre ++ [CStr t'; CNum v'] :: post.
Proof.
  intros Hsame.
  destruct (enhance_shape curve t v) as (h & pre & post & Hout & Hpre).
  exists h, pre, post. split; [exact Hout |].
  rewrite Hout, enhance_cons. cbv zeta.
  assert (Hpre' : forallb (fun r => negb (in_minute t' r)) pre = true).
  { rewrite forallb_forall in *. intros r Hin. specialize (Hpre r Hin).
    unfold PortfolioPositionsGroup.in_minute in *. rewrite Hsame. exact Hpre. }
  assert (Hpoint : in_minute t' [CStr t; CNum v] = true).
  { unfold PortfolioPositionsGroup.in_minute. cbn [row_time].
    rewrite Hsame. apply String.eqb_refl. }
  pose proof (scan_skip _ pre post _ 0 Hpre' Hpoint) as Hscan.
  pose proof (insert_middle pre post [CStr t; CNum v] [CStr t'; CNum v']) as Hins.
  unfold Row in *. rewrite Hscan. cbn [Nat.add]. rewrite Hins. reflexivity.
Qed.
End ChartFacts.

Lemma enhance_again_same_minute_witness :
  exists h pre post,
    PortfolioPositionsGroup.enhance (fun _ => "0") PortfolioPositionsGroup.busy_curve
      "2024-01-01 10:00:50" 1200%float
    = h :: pre ++ [PortfolioPositionsGroup.CStr "2024-01-01 10:00:50"; PortfolioPositionsGroup.CNum 1200%float] :: post
    /\ PortfolioPositionsGroup.enhance (fun _ => "0")
         (PortfolioPositionsGroup.enhance (fun _ => "0") PortfolioPositionsGroup.busy_curve
            "2024-01-01 10:00:50" 1200%float)
         "2024-01-01 10:00:59" 1300%float
       = h :: pre ++ [PortfolioPositionsGroup.CStr "2024-01-01 10:00:59"; PortfolioPositionsGroup.CNum 1300%float] :: post.
Proof.
  apply (enhance_again_same_minute (fun _ => "0") PortfolioPositionsGroup.busy_curve
           "2024-01-01 10:00:50" "2024-01-01 10:00:59" 1200%float 1300%float).
  reflexivity.
Defined.

(** ** The list of strategies and the selection *)

Section SelectionFacts.
Import StrategyTypes TradeStrategyGroup StrategyAgentArea.

Lemma no_card_selected (strategies : list Strategy) (sel : Strategy)
      (card : Strategy -> GroupItem) :
  (forall s, item_selected (card s) = String.eqb (strategy_id sel) (strategy_id s)) ->
  ~ In (strategy_id sel) (map strategy_id strategies) ->
  List.filter item_selected (map card strategies) = [].
Proof.
  intros Hcard. induction strategies as [| s l IH]; intros Hin; [reflexivity |].
  cbn [map List.filter]. rewrite Hcard.
  destruct (String.eqb (strategy_id sel) (strategy_id s)) eqn:E.
  - apply String.eqb_eq in E. exfalso. apply Hin. left. symmetry. exact E.
  - apply IH. intros H. apply Hin. right. exact H.
Qed.

Lemma one_card_selected (strategies : list Strategy) (sel : Strategy)
      (card : Strategy -> GroupItem) :
  (forall s, item_selected (card s) = String.eqb (strategy_id sel) (strategy_id s)) ->
  List.NoDup (map strategy_id strategies) ->
  In (strategy_id sel) (map strategy_id strategies) ->
  List.length (List.filter item_selected (map card strategies)) = 1%nat.
Proof.
  intros Hcard. induction strategies as [| s l IH]; intros Hnd Hin; [destruct Hin |].
  cbn [map] in Hnd, Hin. apply List.NoDup_cons_iff in Hnd. destruct Hnd as [Hs Hnd].
  cbn [map List.filter]. rewrite Hcard.
  destruct (String.eqb_spec (strategy_id sel) (strategy_id s)) as [E | E].
  - rewrite (no_card_selected l sel card Hcard); [reflexivity |].
    rewrite E. exact Hs.
  - destruct Hin as [Hin | Hin]; [congruence |]. apply IH; assumption.
Qed.

(** The group shows its placeholder exactly for an empty list; otherwise
    it shows one card per strategy, in order, and highlights exactly the
    cards whose strategy id is the selected strategy's.  With pairwise
    different ids exactly one card is highlighted when the selected
    strategy's id is in the list, and none is when it is not or when
    nothing is selected. *)
Theorem highlight_by_id (strategies : list Strategy) (sel : option Strategy) :
  match TradeStrategyGroup strategies sel with
  | None => strategies = []
  | Some items =>
      strategies <> []
      /\ map item_strategy items = strategies
      /\ (List.NoDup (map strategy_id strategies) ->
          (List.length (List.filter item_selected items) <= 1)%nat)
      /\ (forall s, sel = Some s ->
            ~ In (strategy_id s) (map strategy_id strategies) ->
            List.filter item_selected items = [])
      /\ (sel = None -> List.filter item_selected items = [])
      /\ (forall it, In it items ->
            (item_selected it = true <->
             exists s, sel = Some s /\ strategy_id s = strategy_id (item_strategy it)))
      /\ (forall s, sel = Some s ->
            List.NoDup (map strategy_id strategies) ->
            In (strategy_id s) (map strategy_id strategies) ->
            List.length (List.filter item_selected items) = 1%nat)
  end.
Proof.
  unfold TradeStrategyGroup. cbv zeta.
  destruct strategies as [| s0 l0]; [reflexivity |].
  cbn [List.length Nat.ltb Nat.leb].
  set (card := fun strategy : Strategy => _).
  split; [discriminate |].
  generalize (s0 :: l0). intros strategies.
  split; [| split; [| split; [| split; [| split]]]].
  - rewrite List.map_map. subst card. cbn [item_strategy]. apply List.map_id.
  - destruct sel as [s |].
    + induction strategies as [| x l IH]; intros Hnd; [cbn; lia |].
      cbn [map] in Hnd. apply List.NoDup_cons_iff in Hnd. destruct Hnd as [Hx Hnd].
      cbn [map List.filter].
      destruct (item_selected (card x)) eqn:E.
      * subst card. cbn [item_selected] in E. apply String.eqb_eq in E.
        rewrite (no_card_selected l s); [cbn; lia | reflexivity |].
        rewrite E. exact Hx.
      * apply IH, Hnd.
    + intros _. induction strategies as [| x l IH]; [cbn; lia |].
      cbn [map List.filter]. subst card. cbn [item_selected]. exact IH.
  - intros s -> Hin. apply (no_card_selected strategies s); [reflexivity | exact Hin].
  - intros ->. induction strategies as [| x l IH]; [reflexivity |].
    cbn [map List.filter]. subst card. cbn [item_selected]. exact IH.
  - intros it Hit. apply in_map_iff in Hit. destruct Hit as (x & <- & _).
    subst card. cbn [item_selected item_strategy].
    destruct sel as [s |].
    + rewrite String.eqb_eq. split.
      * intros E. exists s. split; [reflexivity | exact E].
      * intros (s' & Hs' & E). inversion Hs'; subst s'. exact E.
    + split; [discriminate | intros (s' & Hs' & _); discriminate].
  - intros s -> Hnd Hin. apply (one_card_selected strategies s); [reflexivity | |]; assumption.
Qed.

(** Deleting the selected strategy moves the selection to the first
    strategy of the list the handler saw, and the later effect leaves it
    there whatever list the refetch brings.  When the deleted strategy was
    itself the first one, it stays selected: the right half keeps showing
    it, and once it is gone from the refetched list no card is
    highlighted. *)
Theorem delete_selected_moves_to_first (a : Area) (sel first : Strategy)
        (rest fresh : list Strategy) :
  selectedStrategy a = Some sel ->
  strategies a = first :: rest ->
  let a' := select_first (refetched fresh (onStrategyDelete a (strategy_id sel))) in
  selectedStrategy a' = Some first
  /\ right_pane a' = Some (strategy_id first, trading_mode first)
  /\ (~ In (strategy_id first) (map strategy_id fresh) ->
      forall items,
        TradeStrategyGroup (strategies a') (selectedStrategy a') = Some items ->
        List.filter item_selected items = []).
Proof.
  intros Hsel Hlist. cbv zeta.
  assert (Ha : select_first (refetched fresh (onStrategyDelete a (strategy_id sel)))
               = {| strategies := fresh; selectedStrategy := Some first |}).
  { unfold onStrategyDelete. rewrite Hsel, String.eqb_refl, Hlist.
    unfold refetched, select_first. cbn [strategies selectedStrategy head].
    rewrite orb_true_r. reflexivity. }
  rewrite Ha. cbn [selectedStrategy strategies].
  split; [reflexivity |]. split; [reflexivity |].
  intros Hin items Hitems.
  unfold TradeStrategyGroup in Hitems. cbv zeta in Hitems.
  destruct (0 <? List.length fresh)%nat; [| discriminate].
  inversion Hitems; subst items.
  apply (no_card_selected fresh first); [reflexivity | exact Hin].
Qed.
End SelectionFacts.

Lemma delete_selected_moves_to_first_witness :
  StrategyAgentArea.right_pane
    (StrategyAgentArea.select_first
       (StrategyAgentArea.refetched []
          (StrategyAgentArea.onStrategyDelete StrategyAgentArea.sample_area "s-1")))
  = Some ("s-1", StrategyTypes.Live).
Proof.
  apply (delete_selected_moves_to_first StrategyAgentArea.sample_area
           StrategyAgentArea.sample_strategy StrategyAgentArea.sample_strategy
           [] [] eq_refl eq_refl).
Defined.

(** ** The strategy queries *)

Section QueryFacts.
Import Queries.

(** The cache keys of the per-strategy queries: two queries share a key
    only when they are the same hook with the same id, where a missing id
    counts as the empty one; and no such key starts with the key of the
    strategy list, the one key the create, start, stop and delete
    mutations invalidate. *)
Theorem query_keys_apart (h1 h2 : Hook) (id1 id2 : option string) :
  (key_of h1 id1 = key_of h2 id2 <-> h1 = h2 /\ or_empty id1 = or_empty id2)
  /\ (forall rest, key_of h1 id1 <> strategyList ++ rest).
Proof.
  split; [split |].
  - destruct h1, h2; cbn; intros H; inversion H; auto; discriminate.
  - intros [-> H]. destruct h2; cbn; rewrite H; reflexivity.
  - intros rest. destruct h1; cbn; intros H; inversion H; discriminate.
Qed.

(** A query that is enabled has a non-empty strategy id and requests its
    path followed by exactly that id; the text "undefined" is never
    requested for a missing id. *)
Theorem enabled_query_has_id (h : Hook) (strategyId : option string) :
  enabled (query h strategyId) = true ->
  exists id, strategyId = Some id /\ id <> ""
             /\ url (query h strategyId) = (path_of h ++ id)%string.
Proof.
  unfold query. cbn [enabled url]. unfold truthy_id, interpolated.
  destruct strategyId as [id |]; [| discriminate].
  intros H. exists id. split; [reflexivity |]. split; [| reflexivity].
  apply nonempty_true, H.
Qed.
End QueryFacts.

Lemma enabled_query_has_id_witness :
  exists id, Some "s-1" = Some id /\ id <> ""
             /\ Queries.url (Queries.query Queries.useGetStrategyAssets (Some "s-1"))
                = (Queries.path_of Queries.useGetStrategyAssets ++ id)%string.
Proof.
  apply (enabled_query_has_id Queries.useGetStrategyAssets (Some "s-1")).
  reflexivity.
Defined.

(** ** The entries of the multi-select list *)

Section EntryFacts.
Import MultiSelect.

Lemma without_shorter (v : string) (values : list string) :
  In v values -> (List.length (without v values) < List.length values)%nat.
Proof.
  unfold without. induction values as [| a l IH]; intros Hin; [destruct Hin |].
  cbn [List.filter]. destruct (String.eqb_spec a v) as [E | E]; cbn [negb List.length].
  - pose proof (List.filter_length_le (fun v0 => negb (String.eqb v0 v)) l). lia.
  - destruct Hin as [H | H]; [contradiction |]. specialize (IH H). lia.
Qed.

(** Choosing an entry of the list changes the selection exactly when the
    entry is not disabled: an entry that is enabled never runs into the
    early return of [handleSelect], and a disabled one does nothing. *)
Theorem entry_changes_selection (maxSelected : option Z) (selectedValues : list string)
        (option_ : MultiSelectOption) :
  onSelect maxSelected selectedValues option_ = selectedValues
  <-> isDisabled maxSelected selectedValues option_ = true.
Proof.
  unfold onSelect. destruct (isDisabled maxSelected selectedValues option_) eqn:Hdis;
    cbn [negb]; [tauto |].
  split; [| discriminate]. intros Hsame. exfalso.
  unfold isDisabled in Hdis. cbv zeta in Hdis.
  apply orb_false_iff in Hdis. destruct Hdis as [_ Hlim].
  unfold after_select, handleSelect in Hsame. cbv zeta in Hsame.
  destruct (includes selectedValues (value option_)) eqn:Hin.
  - apply eqb_in in Hin.
    pose proof (without_shorter (value option_) selectedValues Hin) as Hlen.
    rewrite Hsame in Hlen. lia.
  - rewrite andb_true_r in Hlim. rewrite Hlim in Hsame.
    apply (f_equal (@List.length _)) in Hsame. rewrite length_app in Hsame.
    cbn [List.length] in Hsame. lia.
Qed.

(** The "Create ..." entry is offered without regard to [maxSelected]:
    when it is offered, choosing it appends the typed text to the
    selection, unless the limit is reached, in which case the entry is
    shown all the same and choosing it leaves the selection as it is. *)
Theorem create_entry_and_limit (maxSelected : option Z) (creatable : bool)
        (normalized : list MultiSelectOption) (selectedValues : list string)
        (inputValue : string) :
  offers_create creatable normalized selectedValues inputValue = true ->
  inputValue <> ""
  /\ ~ In inputValue selectedValues
  /\ handleSelect maxSelected selectedValues inputValue
     = (if limit_reached maxSelected selectedValues then None
        else Some (selectedValues ++ [inputValue]))
  /\ after_select maxSelected selectedValues inputValue
     = (if limit_reached maxSelected selectedValues then selectedValues
        else selectedValues ++ [inputValue]).
Proof.
  unfold offers_create. rewrite !andb_true_iff.
  intros [[[_ Hlen] _] Hsel]. apply negb_true_iff in Hsel.
  split; [intros ->; discriminate |].
  split; [intros Hin; apply eqb_in in Hin; unfold includes in Hsel; congruence |].
  unfold after_select, handleSelect. cbv zeta. rewrite Hsel.
  destruct (limit_reached maxSelected selectedValues); split; reflexivity.
Qed.
End EntryFacts.

Lemma create_entry_and_limit_witness :
  MultiSelect.after_select (Some 1%Z) ["BTC-USDT"] "DOGE-USDT" = ["BTC-USDT"].
Proof.
  destruct (create_entry_and_limit (Some 1%Z) true [] ["BTC-USDT"] "DOGE-USDT" eq_refl)
    as (_ & _ & _ & H).
  exact H.
Defined.
